(** * IBM HR attrition script ([src/ibm.py]): data preparation and attrition rate

    The script is a straight line of pandas calls on one global table [df]:
    load the CSV file, drop the candidate columns that hold a single value,
    recode seven ordinal columns through fixed dictionaries, and print the
    overall attrition rate.  Each of these stages is embedded below as a
    function over an explicit [DataFrame] value, in a monad that carries
    what the script prints and how it stops (normal end, [exit()], or an
    exception nobody catches).  The figures drawn after the attrition rate
    only read the table and are not part of the embedding. *)

From Stdlib Require Import ZArith QArith String Ascii Lia.
From Stdlib Require Floats Uint63.
From stdpp Require Import gmap strings list pretty.

Local Open Scope string_scope.
Local Open Scope list_scope.
Local Open Scope nat_scope.

(** ** Cells, columns and tables *)

(** A cell as [pd.read_csv] produces it: a number, a text, or the missing
    marker NaN.  Only integral numbers are represented, which is what the
    columns this script touches hold. *)
Inductive value : Type :=
| VInt (z : Z)
| VStr (s : string)
| VNaN.

#[global] Instance value_eq_dec : EqDecision value.
Proof. solve_decision. Defined.

(** A pandas Series: the cells of one column, in row order. *)
Abbreviation Series := (list value) (only parsing).

(** [cols] keeps the columns in file order, each with its label; [nrows] is
    the length of the index, [len(df)].  pandas keeps the index when a
    column is dropped, so [nrows] is a field of its own. *)
Record DataFrame : Type := mkDataFrame {
  cols : list (string * Series);
  nrows : nat
}.

(** [df.columns] *)
Definition columns (df : DataFrame) : list string := (cols df).*1.

(** Tables as [read_csv] returns them: distinct labels (duplicates in the
    header are renamed by the reader) and every column as long as the
    index. *)
Definition well_formed (df : DataFrame) : Prop :=
  NoDup (columns df) ∧ Forall (λ p, length p.2 = nrows df) (cols df).

#[global] Instance well_formed_dec df : Decision (well_formed df).
Proof. unfold well_formed. apply _. Defined.

(** ** Exceptions, output and the script monad *)

Inductive exn : Type :=
| FileNotFoundError
| PermissionError
| EmptyDataError
| ParserError
| UnicodeDecodeError
| KeyError (label : string).

#[global] Instance exn_eq_dec : EqDecision exn.
Proof. solve_decision. Defined.

(** What reaches standard output, one event per call that prints, kept as
    what the call is handed; how pandas lays a table or a summary out on
    the screen (truncation of wide or long tables included) is not
    represented.  [Text] is a fixed or formatted line;
    [Shape] is [print("Shape of the dataset (rows, columns):", df.shape)];
    [Head] is [print(df.head())], with the table [df.head()];
    [Info] is [df.info()], with the table it summarises;
    [NullCounts] is [print(df.isnull().sum())], with the count of missing
    cells of each column; [Duplicates] is
    [print("\nNumber of duplicate rows:", df.duplicated().sum())]. *)
Inductive event : Type :=
| Text (s : string)
| Shape (rows columns : nat)
| Head (df : DataFrame)
| Info (df : DataFrame)
| NullCounts (nulls : list (string * nat))
| Duplicates (n : nat).

(** How a run stops early: [exit()] or an uncaught exception. *)
Inductive stop : Type :=
| Exit
| Raise (e : exn).

Definition M (A : Type) : Type := list event * (stop + A).

#[global] Instance M_ret : MRet M := λ A a, ([], inr a).

#[global] Instance M_bind : MBind M := λ A B k m,
  match m.2 with
  | inl s => (m.1, inl s)
  | inr a => (m.1 ++ (k a).1, (k a).2)
  end.

Definition print (e : event) : M unit := ([e], inr tt).
Definition raise {A} (e : exn) : M A := ([], inl (Raise e)).
Definition exit {A} : M A := ([], inl Exit).

(** [try: body  except FileNotFoundError: handler] *)
Definition try_except_FileNotFoundError {A} (body handler : M A) : M A :=
  match body.2 with
  | inl (Raise FileNotFoundError) => (body.1 ++ handler.1, handler.2)
  | _ => body
  end.

(** [for x in xs: s = body(s, x)] *)
Fixpoint for_each {A S} (xs : list A) (body : S → A → M S) (s : S) : M S :=
  match xs with
  | [] => mret s
  | x :: xs' => s' ← body s x; for_each xs' body s'
  end.

Definition output {A} (m : M A) : list event := m.1.
Definition outcome {A} (m : M A) : stop + A := m.2.

Definition nl : string := String (ascii_of_nat 10) EmptyString.

(** ** pandas primitives used by the script *)

Fixpoint lookup_col (c : string) (l : list (string * Series)) : option Series :=
  match l with
  | [] => None
  | (c', s) :: l' => if decide (c' = c) then Some s else lookup_col c l'
  end.

(** [df[c]] *)
Definition getitem (df : DataFrame) (c : string) : M Series :=
  match lookup_col c (cols df) with
  | Some s => mret s
  | None => raise (KeyError c)
  end.

Fixpoint assign (c : string) (s : Series) (l : list (string * Series))
  : list (string * Series) :=
  match l with
  | [] => [(c, s)]
  | (c', s') :: l' =>
      if decide (c' = c) then (c, s) :: l' else (c', s') :: assign c s l'
  end.

(** [df[c] = s]: an existing column is replaced where it stands, a new
    label is appended. *)
Definition setitem (df : DataFrame) (c : string) (s : Series) : DataFrame :=
  {| cols := assign c s (cols df); nrows := nrows df |}.

(** [df.drop(columns=[c], inplace=True)]: a missing label is a KeyError. *)
Definition drop_column (df : DataFrame) (c : string) : M DataFrame :=
  if bool_decide (c ∈ columns df) then
    mret {| cols := filter (λ p, p.1 ≠ c) (cols df); nrows := nrows df |}
  else raise (KeyError c).

Definition notna (v : value) : Prop := v ≠ VNaN.

(** [s.nunique()]: the number of distinct values, missing cells left out. *)
Definition nunique (s : Series) : nat :=
  length (remove_dups (filter notna s)).

Definition count_of (v : value) (s : Series) : nat :=
  length (filter (λ x, x = v) s).

(** [s.value_counts()]: one entry per distinct non-missing value, with the
    number of cells that hold it.  pandas sorts the entries by count; the
    script only looks one label up, so the order is left as first seen. *)
Definition value_counts (s : Series) : list (value * nat) :=
  (λ v, (v, count_of v s)) <$> remove_dups (filter notna s).

Fixpoint lookup_label (v : value) (l : list (value * nat)) : option nat :=
  match l with
  | [] => None
  | (v', n) :: l' => if decide (v' = v) then Some n else lookup_label v l'
  end.

(** [counts[label]] on the result of [value_counts] *)
Definition loc (counts : list (value * nat)) (label : string) : M nat :=
  match lookup_label (VStr label) counts with
  | Some n => mret n
  | None => raise (KeyError label)
  end.

(** [s.map(d)] for a dict [d] with integer keys: a cell that is not a key
    of [d] (another number, a text, a missing cell) becomes NaN. *)
Definition map_value (d : gmap Z string) (v : value) : value :=
  match v with
  | VInt k => match d !! k with Some l => VStr l | None => VNaN end
  | _ => VNaN
  end.

Definition Series_map (d : gmap Z string) (s : Series) : Series :=
  map_value d <$> s.

(** [df.head()]: the first five rows. *)
Definition head (df : DataFrame) : DataFrame :=
  {| cols := (λ p, (p.1, take 5 p.2)) <$> cols df; nrows := min 5 (nrows df) |}.

Definition count_null (s : Series) : nat := length (filter (λ v, v = VNaN) s).
Definition count_notnull (s : Series) : nat := length (filter notna s).

(** Row [i] of the table, column by column. *)
Definition row (df : DataFrame) (i : nat) : list value :=
  (λ p, default VNaN (p.2 !! i)) <$> cols df.

(** [df.duplicated().sum()]: rows that repeat an earlier row. *)
Definition duplicated_sum (df : DataFrame) : nat :=
  nrows df - length (remove_dups (row df <$> seq 0 (nrows df))).

(** [df.info()] *)
Definition info (df : DataFrame) : M unit := print (Info df).

(** ** Section 2 of the script: loading *)

(** What the reader finds at a path.  The CSV tokenizer belongs to pandas,
    so a file is represented by what [read_csv] makes of it: the table it
    parses to, or the reason it cannot be read. *)
Inductive file : Type :=
| Csv (df : DataFrame)
| Unreadable
| Empty
| Garbled
| BadEncoding.

Definition csv_path : string :=
  "c:\users\Mohit\Documents\Unified Mentor Projects\IBM\WA_Fn-UseC_-HR-Employee-Attrition .csv".

(** [pd.read_csv(path)] *)
Definition read_csv (fs : gmap string file) (path : string) : M DataFrame :=
  match fs !! path with
  | None => raise FileNotFoundError
  | Some Unreadable => raise PermissionError
  | Some Empty => raise EmptyDataError
  | Some Garbled => raise ParserError
  | Some BadEncoding => raise UnicodeDecodeError
  | Some (Csv df) => mret df
  end.

(** Lines 30-36. *)
Definition load (fs : gmap string file) : M DataFrame :=
  try_except_FileNotFoundError
    (df ← read_csv fs csv_path;
     print (Text ("Dataset loaded successfully." +:+ nl));;
     mret df)
    (print (Text "Error: The CSV file 'WA_Fn-UseC_-HR-Employee-Attrition .csv' was not found.");;
     print (Text "Please make sure the file is in the same directory as the script.");;
     exit).

(** Lines 38-54. *)
Definition explore (df : DataFrame) : M unit :=
  print (Shape (nrows df) (length (columns df)));;
  print (Text (nl +:+ "First 5 rows of the dataset:"));;
  print (Head (head df));;
  print (Text (nl +:+ "Dataset information:"));;
  info df;;
  print (Text (nl +:+ "Missing values in the dataset:"));;
  print (NullCounts ((λ p, (p.1, count_null p.2)) <$> cols df));;
  print (Duplicates (duplicated_sum df)).

(** ** Section 3 of the script: cleaning and recoding *)

Definition columns_to_drop : list string :=
  ["EmployeeCount"; "StandardHours"; "Over18"].

(** Body of the loop of lines 62-65; [and] evaluates [df[col]] only when
    the label is there. *)
Definition prune_column (df : DataFrame) (col : string) : M DataFrame :=
  if bool_decide (col ∈ columns df) then
    s ← getitem df col;
    if bool_decide (nunique s = 1) then
      df' ← drop_column df col;
      print (Text (nl +:+ "Dropped column '" +:+ col
                      +:+ "' as it contains only one unique value."));;
      mret df'
    else mret df
  else mret df.

Definition prune_constant_columns (df : DataFrame) : M DataFrame :=
  for_each columns_to_drop prune_column df.

Local Open Scope Z_scope.

Definition education_map : gmap Z string :=
  {[ 1 := "Below College"; 2 := "College"; 3 := "Bachelor";
     4 := "Master"; 5 := "Doctor" ]}.
Definition environment_satisfaction_map : gmap Z string :=
  {[ 1 := "Low"; 2 := "Medium"; 3 := "High"; 4 := "Very High" ]}.
Definition job_involvement_map : gmap Z string :=
  {[ 1 := "Low"; 2 := "Medium"; 3 := "High"; 4 := "Very High" ]}.
Definition job_satisfaction_map : gmap Z string :=
  {[ 1 := "Low"; 2 := "Medium"; 3 := "High"; 4 := "Very High" ]}.
Definition performance_rating_map : gmap Z string :=
  {[ 1 := "Low"; 2 := "Good"; 3 := "Excellent"; 4 := "Outstanding" ]}.
Definition relationship_satisfaction_map : gmap Z string :=
  {[ 1 := "Low"; 2 := "Medium"; 3 := "High"; 4 := "Very High" ]}.
Definition work_life_balance_map : gmap Z string :=
  {[ 1 := "Bad"; 2 := "Good"; 3 := "Better"; 4 := "Best" ]}.

Local Close Scope Z_scope.

(** One line of lines 77-83: [df[c] = df[c].map(d)]. *)
Definition recode_column (df : DataFrame) (cd : string * gmap Z string)
  : M DataFrame :=
  s ← getitem df cd.1;
  mret (setitem df cd.1 (Series_map cd.2 s)).

(** The seven assignments of lines 77-83, in the order of the script. *)
Definition recode_steps : list (string * gmap Z string) :=
  [ ("Education", education_map);
    ("EnvironmentSatisfaction", environment_satisfaction_map);
    ("JobInvolvement", job_involvement_map);
    ("JobSatisfaction", job_satisfaction_map);
    ("PerformanceRating", performance_rating_map);
    ("RelationshipSatisfaction", relationship_satisfaction_map);
    ("WorkLifeBalance", work_life_balance_map) ].

(** The assignments run in a given order; the script's order is
    [recode_steps]. *)
Definition recode_with (steps : list (string * gmap Z string))
  (df : DataFrame) : M DataFrame :=
  for_each steps recode_column df.

Definition recode_ordinals (df : DataFrame) : M DataFrame :=
  recode_with recode_steps df.

(** ** Section 4 of the script: the attrition rate *)

(** A count or an integer literal as a binary64 number, as the division
    and the product of line 93 take them.  The counts of a table are below
    2^63, the range of the conversion. *)
Definition float_of_int (z : Z) : PrimFloat.float :=
  PrimFloat.of_uint63 (Uint63.of_Z z).

(** Lines 92-93.  The quotient and the product are those of binary64. *)
Definition attrition_rate (df : DataFrame) : M PrimFloat.float :=
  s ← getitem df "Attrition";
  let attrition_counts := value_counts s in
  yes ← loc attrition_counts "Yes";
  mret (PrimFloat.mul
          (PrimFloat.div (float_of_int (Z.of_nat yes))
                         (float_of_int (Z.of_nat (nrows df))))
          (float_of_int 100)).

(** Nearest integer, ties to even. *)
Definition round_half_even (q : Q) : Z :=
  let n := Qnum q in
  let d := Z.pos (Qden q) in
  let fl := (n / d)%Z in
  let r2 := (2 * (n mod d))%Z in
  if (r2 <? d)%Z then fl
  else if (d <? r2)%Z then (fl + 1)%Z
  else if Z.even fl then fl else (fl + 1)%Z.

(** The rational that a finite binary64 number with mantissa [m] and
    exponent [e] stands for, sign apart: m * 2^e. *)
Definition exact_value (m : positive) (e : Z) : Q :=
  if (0 <=? e)%Z then inject_Z (Z.pos m * 2 ^ e)
  else Qmake (Z.pos m) (Z.to_pos (2 ^ (- e))).

(** A sign and a number of hundredths in fixed notation. *)
Definition fixed_2 (sign : bool) (h : Z) : string :=
  (if sign then "-" else "")
    +:+ pretty (h / 100)%Z +:+ "."
    +:+ pretty ((h mod 100) / 10)%Z +:+ pretty (h mod 10)%Z.

(** [f"{x:.2f}"] for a binary64 number: the exact value of [x] rounded to
    two decimals, ties to even. *)
Definition format_2f (x : PrimFloat.float) : string :=
  match FloatOps.Prim2SF x with
  | SpecFloat.S754_nan => "nan"
  | SpecFloat.S754_infinity s => if s then "-inf" else "inf"
  | SpecFloat.S754_zero s => fixed_2 s 0
  | SpecFloat.S754_finite s m e =>
      fixed_2 s (round_half_even (exact_value m e * 100)%Q)
  end.

(** ** The script, up to line 94 *)

(** Lines 60-83: the two passes that change the table. *)
Definition clean (df : DataFrame) : M DataFrame :=
  df ← prune_constant_columns df;
  recode_ordinals df.

Definition prepare (fs : gmap string file) : M DataFrame :=
  df ← load fs;
  explore df;;
  df ← clean df;
  print (Text (nl +:+ "Categorical columns mapped to descriptive labels."));;
  print (Text (nl +:+ "Updated DataFrame info:"));;
  info df;;
  mret df.

Definition script (fs : gmap string file) : M (DataFrame * PrimFloat.float) :=
  df ← prepare fs;
  rate ← attrition_rate df;
  print (Text (nl +:+ "Overall Attrition Rate: " +:+ format_2f rate +:+ "%"));;
  mret (df, rate).

(** ** Sample tables *)

Definition Yes : value := VStr "Yes".
Definition No : value := VStr "No".

(** The three rows and three columns of the worked example. *)
Definition three_rows : DataFrame :=
  {| cols := [ ("EmployeeCount", [VInt 1; VInt 1; VInt 1]);
               ("Attrition", [Yes; No; Yes]);
               ("Education", [VInt 3; VInt 4; VInt 1]) ];
     nrows := 3 |}.

(** The same three rows with the other six ordinal columns of the
    schema. *)
Definition three_rows_full : DataFrame :=
  {| cols := cols three_rows ++
             [ ("EnvironmentSatisfaction", [VInt 2; VInt 3; VInt 4]);
               ("JobInvolvement", [VInt 3; VInt 2; VInt 3]);
               ("JobSatisfaction", [VInt 4; VInt 2; VInt 3]);
               ("PerformanceRating", [VInt 3; VInt 4; VInt 3]);
               ("RelationshipSatisfaction", [VInt 1; VInt 4; VInt 2]);
               ("WorkLifeBalance", [VInt 1; VInt 3; VInt 3]) ];
     nrows := 3 |}.

(** A staff of two, both still employed. *)
Definition nobody_left : DataFrame :=
  {| cols := [ ("Attrition", [No; No]);
               ("Education", [VInt 2; VInt 5]);
               ("EnvironmentSatisfaction", [VInt 2; VInt 3]);
               ("JobInvolvement", [VInt 3; VInt 2]);
               ("JobSatisfaction", [VInt 4; VInt 2]);
               ("PerformanceRating", [VInt 3; VInt 4]);
               ("RelationshipSatisfaction", [VInt 1; VInt 4]);
               ("WorkLifeBalance", [VInt 1; VInt 3]) ];
     nrows := 2 |}.

(** The three rows again, with Education cells that are no keys of its
    table. *)
Definition odd_codes : DataFrame :=
  {| cols := [ ("Attrition", [Yes; No; Yes]);
               ("Education", [VInt 9; VStr "Master"; VNaN]);
               ("EnvironmentSatisfaction", [VInt 2; VInt 3; VInt 4]);
               ("JobInvolvement", [VInt 3; VInt 2; VInt 3]);
               ("JobSatisfaction", [VInt 4; VInt 2; VInt 3]);
               ("PerformanceRating", [VInt 3; VInt 4; VInt 3]);
               ("RelationshipSatisfaction", [VInt 1; VInt 4; VInt 2]);
               ("WorkLifeBalance", [VInt 1; VInt 3; VInt 3]) ];
     nrows := 3 |}.


(** A candidate column with nothing but missing cells. *)
Definition all_missing : DataFrame :=
  {| cols := [ ("Over18", [VNaN; VNaN]); ("Attrition", [Yes; No]) ];
     nrows := 2 |}.

(** A candidate column with a gap: one value and one missing cell. *)
Definition with_gap : DataFrame :=
  {| cols := [ ("EmployeeCount", [VInt 1; VNaN]);
               ("StandardHours", [VInt 80; VInt 40]);
               ("Attrition", [Yes; No]) ];
     nrows := 2 |}.

(** ** Notions used to state the properties *)

(** The loop's test on a label: the column is there and [nunique] is 1. *)
Definition constant (df : DataFrame) (c : string) : Prop :=
  match lookup_col c (cols df) with
  | Some s => nunique s = 1
  | None => False
  end.

#[global] Instance constant_dec df c : Decision (constant df c).
Proof. unfold constant. destruct (lookup_col c (cols df)); apply _. Defined.

(** The columns a run of the loop over [cs] takes out of [df]. *)
Definition dropped (cs : list string) (df : DataFrame) (c : string) : Prop :=
  c ∈ cs ∧ constant df c.

#[global] Instance dropped_dec cs df c : Decision (dropped cs df c).
Proof. unfold dropped. apply _. Defined.

(** Exactly one distinct value among the cells that hold one. *)
Definition single_valued (s : Series) : Prop :=
  ∃ v, v ≠ VNaN ∧ v ∈ s ∧ ∀ x, x ∈ s → x ≠ VNaN → x = v.

(** A cell is a valid code of a mapping table: an integer key of it. *)
Definition valid_code (d : gmap Z string) (v : value) : Prop :=
  ∃ k, v = VInt k ∧ is_Some (d !! k).

#[global] Instance valid_code_dec d v : Decision (valid_code d v).
Proof.
  destruct v as [k|s|].
  - destruct (d !! k) as [l|] eqn:Hk.
    + left. exists k. eauto.
    + right. intros (k' & [= <-] & l & Hl). congruence.
  - right. by intros (k & ? & _).
  - right. by intros (k & ? & _).
Defined.

Definition is_label (v : value) : Prop := ∃ l, v = VStr l.

(** The seven ordinal columns, by the names the specification gives
    them. *)
Definition ordinal_columns : list string :=
  [ "Education"; "EnvironmentSatisfaction"; "JobInvolvement";
    "JobSatisfaction"; "PerformanceRating"; "RelationshipSatisfaction";
    "WorkLifeBalance" ].

(** The mapping table of each ordinal column, by the column's name. *)
Definition mapping (c : string) : gmap Z string :=
  if decide (c = "Education") then education_map
  else if decide (c = "EnvironmentSatisfaction") then environment_satisfaction_map
  else if decide (c = "JobInvolvement") then job_involvement_map
  else if decide (c = "JobSatisfaction") then job_satisfaction_map
  else if decide (c = "PerformanceRating") then performance_rating_map
  else if decide (c = "RelationshipSatisfaction") then relationship_satisfaction_map
  else if decide (c = "WorkLifeBalance") then work_life_balance_map
  else ∅.

(** The valid codes of an ordinal column run from 1 to this bound. *)
Definition code_bound (c : string) : Z :=
  if decide (c = "Education") then 5%Z else 4%Z.

(** The three pruning candidates, by the names the specification gives
    them. *)
Definition candidate_columns : list string :=
  [ "EmployeeCount"; "StandardHours"; "Over18" ].

(** The table has the seven ordinal columns. *)
Definition has_ordinal_columns (df : DataFrame) : Prop :=
  Forall (λ c, c ∈ columns df) ordinal_columns.

#[global] Instance has_ordinal_columns_dec df : Decision (has_ordinal_columns df).
Proof. unfold has_ordinal_columns. apply _. Defined.

(** The seven ordinal columns are there and every cell of them is a key
    of the column's mapping table. *)
Definition holds_valid_codes (df : DataFrame) : Prop :=
  Forall (λ c, match lookup_col c (cols df) with
               | Some s => Forall (valid_code (mapping c)) s
               | None => False
               end) ordinal_columns.

#[global] Instance holds_valid_codes_dec df : Decision (holds_valid_codes df).
Proof.
  unfold holds_valid_codes. apply Forall_dec. intros c.
  destruct (lookup_col c (cols df)); apply _.
Defined.

(** A candidate column is removed exactly when it holds one distinct cell
    content, a missing cell counted like any other. *)
Definition pruned_iff_one_content : Prop :=
  ∀ df c s out df',
    c ∈ candidate_columns →
    lookup_col c (cols df) = Some s →
    prune_constant_columns df = (out, inr df') →
    (c ∉ columns df' ↔ length (remove_dups s) = 1).


(** The binary64 number that line 93 computes from a count of Yes cells
    and a number of rows. *)
Definition rate_of (yes rows : nat) : PrimFloat.float :=
  PrimFloat.mul
    (PrimFloat.div (float_of_int (Z.of_nat yes)) (float_of_int (Z.of_nat rows)))
    (float_of_int 100).

(** No table can be read from the script's path: nothing is there, or
    what is there does not parse. *)
Definition unavailable (fs : gmap string file) : Prop :=
  match fs !! csv_path with
  | Some (Csv _) => False
  | _ => True
  end.

#[global] Instance unavailable_dec fs : Decision (unavailable fs).
Proof. unfold unavailable. destruct (fs !! csv_path) as [[]|]; apply _. Defined.

(** What the [except] branch of lines 33-36 prints. *)
Definition not_found_report : list event :=
  [ Text "Error: The CSV file 'WA_Fn-UseC_-HR-Employee-Attrition .csv' was not found.";
    Text "Please make sure the file is in the same directory as the script." ].

(** Every failed load stops the run in one and the same way. *)
Definition single_failure_kind : Prop :=
  ∃ s : stop, ∀ fs, unavailable fs → outcome (load fs) = inl s.

(** ** The rest of section 4: what the figures read *)

(** Lines 97-101 and 119-122. *)
Definition categorical_features : list string :=
  [ "Gender"; "MaritalStatus"; "Department"; "JobRole"; "EducationField";
    "BusinessTravel"; "JobSatisfaction"; "EnvironmentSatisfaction";
    "WorkLifeBalance"; "JobInvolvement" ].

Definition numerical_features : list string :=
  [ "Age"; "MonthlyIncome"; "YearsAtCompany"; "DistanceFromHome";
    "TotalWorkingYears" ].

(** Every label that lines 92-154 look up in the table: the column of the
    attrition rate, and the [x], [y] and [hue] of the count plots (line
    108), the histograms (line 129), the violin plot (line 139) and the box
    plot (line 148). *)
Definition columns_read : list string :=
  "Attrition" :: categorical_features ++ numerical_features
    ++ [ "Education"; "MonthlyIncome"; "JobRole"; "DistanceFromHome" ].

(** The line that line 65 prints for a dropped column. *)
Definition dropped_message (col : string) : event :=
  Text (nl +:+ "Dropped column '" +:+ col
           +:+ "' as it contains only one unique value.").

(** The table without the columns whose label satisfies [D]. *)
Definition without (D : string → Prop) `{∀ c, Decision (D c)}
  (df : DataFrame) : DataFrame :=
  {| cols := filter (λ p, ¬ D p.1) (cols df); nrows := nrows df |}.

(** The rows of the table, first to last. *)
Definition rows (df : DataFrame) : list (list value) :=
  row df <$> seq 0 (nrows df).

(** * Properties *)

(** ** The monad *)

Lemma bind_ret {A B} (a : A) (k : A → M B) : (mret a ≫= k) = k a.
Proof. unfold mbind, M_bind, mret, M_ret. simpl. by destruct (k a). Qed.

Lemma bind_pure {A B} (a : A) (k : A → M B) out :
  ((out, inr a) : M A) ≫= k = (out ++ (k a).1, (k a).2).
Proof. reflexivity. Qed.

Lemma run_eta_pair {A} (m : M A) : (m.1, m.2) = m.
Proof. by destruct m. Qed.

Lemma bind_stop {A B} (s : stop) (k : A → M B) out :
  ((out, inl s) : M A) ≫= k = (out, inl s).
Proof. reflexivity. Qed.

(** ** Column lookup *)

Lemma lookup_col_None c l : lookup_col c l = None ↔ c ∉ l.*1.
Proof.
  induction l as [|[c' s] l IH]; simpl.
  - split; [intros _; apply not_elem_of_nil | done].
  - rewrite not_elem_of_cons. destruct (decide (c' = c)) as [->|Hne].
    + split; [done | intros [? _]; done].
    + rewrite IH. split; [intros ?; split; [congruence | done] | intros [_ ?]; done].
Qed.

Lemma lookup_col_is_Some c l : is_Some (lookup_col c l) ↔ c ∈ l.*1.
Proof.
  rewrite <- not_eq_None_Some, lookup_col_None.
  split; [apply dec_stable | intros H Hn; done].
Qed.

Lemma lookup_col_filter (D : string → Prop) `{∀ c, Decision (D c)} c l :
  lookup_col c (filter (λ p, ¬ D p.1) l)
  = if decide (D c) then None else lookup_col c l.
Proof.
  induction l as [|[c' s] l IH]; simpl.
  - by destruct (decide (D c)).
  - rewrite filter_cons. simpl. destruct (decide (¬ D c')) as [Hk|Hk]; simpl.
    + destruct (decide (c' = c)) as [->|Hne]; [|done].
      by destruct (decide (D c)).
    + destruct (decide (c' = c)) as [->|Hne]; [|done].
      destruct (decide (D c)); [|done]. apply IH.
Qed.

Lemma getitem_Some df c s :
  lookup_col c (cols df) = Some s → getitem df c = mret s.
Proof. unfold getitem. by intros ->. Qed.

Lemma getitem_None df c :
  lookup_col c (cols df) = None → getitem df c = raise (KeyError c).
Proof. unfold getitem. by intros ->. Qed.

(** ** Pruning *)

Lemma constant_in_columns df c : constant df c → c ∈ columns df.
Proof.
  unfold constant, columns. intros H. apply lookup_col_is_Some.
  destruct (lookup_col c (cols df)); [eauto | done].
Qed.

(** One turn of the loop either leaves the table alone or removes the
    column, and never raises. *)
Lemma prune_column_constant df c :
  constant df c →
  prune_column df c
  = ([Text (nl +:+ "Dropped column '" +:+ c
               +:+ "' as it contains only one unique value.")],
     inr {| cols := filter (λ p, p.1 ≠ c) (cols df); nrows := nrows df |}).
Proof.
  intros Hc. pose proof (constant_in_columns _ _ Hc) as Hin.
  unfold prune_column, constant in *. rewrite bool_decide_eq_true_2 by done.
  destruct (lookup_col c (cols df)) as [s|] eqn:Hs; [|done].
  rewrite (getitem_Some _ _ _ Hs), bind_ret.
  rewrite bool_decide_eq_true_2 by done.
  unfold drop_column. rewrite bool_decide_eq_true_2 by done.
  reflexivity.
Qed.

Lemma prune_column_not_constant df c :
  ¬ constant df c → prune_column df c = mret df.
Proof.
  intros Hc. unfold prune_column. case_bool_decide as Hin; [|done].
  apply lookup_col_is_Some in Hin as [s Hs].
  rewrite (getitem_Some _ _ _ Hs), bind_ret.
  rewrite bool_decide_eq_false_2; [done|].
  intros Hn. apply Hc. unfold constant. by rewrite Hs.
Qed.

Lemma prune_noop cs df :
  (∀ c, c ∈ cs → ¬ constant df c) → for_each cs prune_column df = mret df.
Proof.
  induction cs as [|c cs IH]; intros H; [done|]. simpl.
  rewrite prune_column_not_constant, bind_ret by (apply H; left).
  apply IH. intros c' Hc'. apply H. by right.
Qed.

Lemma filter_all {A} (P : A → Prop) `{∀ x, Decision (P x)} (l : list A) :
  (∀ x, x ∈ l → P x) → filter P l = l.
Proof.
  induction l as [|x l IH]; intros Hall; [done|].
  rewrite filter_cons_True by (apply Hall; left).
  f_equal. apply IH. intros y Hy. apply Hall. by right.
Qed.

Lemma constant_without df c c' :
  c' ≠ c →
  constant {| cols := filter (λ p, p.1 ≠ c) (cols df); nrows := nrows df |} c'
  ↔ constant df c'.
Proof.
  intros Hne. unfold constant. simpl.
  pose proof (lookup_col_filter (λ x, x = c) c' (cols df)) as H.
  simpl in H. rewrite H. by rewrite decide_False.
Qed.

(** The whole loop: it ends normally, and what is left is the table
    without the constant candidates, the other columns in place. *)
Lemma prune_spec cs df :
  ∃ out, for_each cs prune_column df
         = (out, inr {| cols := filter (λ p, ¬ dropped cs df p.1) (cols df);
                        nrows := nrows df |}).
Proof.
  revert df. induction cs as [|c cs IH]; intros df.
  - exists []. simpl. unfold mret, M_ret. do 2 f_equal. destruct df as [l n].
    simpl. f_equal. symmetry. apply filter_all. intros p _ [H _].
    by apply elem_of_nil in H.
  - simpl. destruct (decide (constant df c)) as [Hc|Hc].
    + rewrite prune_column_constant by done.
      destruct (IH {| cols := filter (λ p, p.1 ≠ c) (cols df);
                      nrows := nrows df |}) as [out Hout].
      eexists. rewrite bind_pure, Hout. simpl. do 3 f_equal.
      rewrite list_filter_filter. apply list_filter_iff. intros [c' s]. simpl.
      unfold dropped. rewrite elem_of_cons. split.
      * intros [Hn Hne] [[->|Hin] Hc']; [done|].
        apply Hn. split; [done|]. by apply constant_without.
      * intros Hn. assert (c' ≠ c) as Hne by (intros ->; apply Hn; auto).
        split; [|done]. intros [Hin Hc']. apply Hn. split; [auto|].
        by apply (constant_without df c c').
    + rewrite prune_column_not_constant, bind_ret by done.
      destruct (IH df) as [out Hout]. exists out. rewrite Hout. do 3 f_equal.
      apply list_filter_iff. intros [c' s]. simpl.
      unfold dropped. rewrite elem_of_cons. split.
      * intros Hn [[->|Hin] Hc']; [done|]. apply Hn. auto.
      * intros Hn [Hin Hc']. apply Hn. auto.
Qed.

Lemma prune_lookup cs df df' out c :
  for_each cs prune_column df = (out, inr df') →
  lookup_col c (cols df')
  = if decide (dropped cs df c) then None else lookup_col c (cols df).
Proof.
  destruct (prune_spec cs df) as [out' ->]. intros [= _ <-]. simpl.
  apply (lookup_col_filter (dropped cs df)).
Qed.

(** ** Counting distinct values *)

Lemma NoDup_all_equal {A} (l : list A) v :
  NoDup l → (∀ x, x ∈ l → x = v) → length l ≤ 1.
Proof.
  intros Hnd Hall. destruct l as [|a [|b l]]; simpl; [lia | lia |].
  exfalso. apply NoDup_cons in Hnd as [Hnotin _]. apply Hnotin.
  rewrite (Hall a), (Hall b); [left | right; left | left].
Qed.

Lemma nunique_one s : nunique s = 1 ↔ single_valued s.
Proof.
  unfold nunique, single_valued. split.
  - intros Hlen.
    destruct (remove_dups (filter notna s)) as [|v [|w l]] eqn:Hrd; try done.
    assert (∀ x, x ∈ s → x ≠ VNaN → x = v) as Hall.
    { intros x Hx Hna.
      assert (x ∈ remove_dups (filter notna s)) as Hin
        by (apply elem_of_remove_dups, list_elem_of_filter; done).
      rewrite Hrd in Hin. by apply list_elem_of_singleton in Hin. }
    assert (v ∈ remove_dups (filter notna s)) as Hv by (rewrite Hrd; left).
    apply elem_of_remove_dups, list_elem_of_filter in Hv as [Hna Hv].
    exists v. done.
  - intros (v & Hna & Hv & Hall).
    assert (v ∈ remove_dups (filter notna s)) as Hin
      by (apply elem_of_remove_dups, list_elem_of_filter; done).
    assert (length (remove_dups (filter notna s)) ≤ 1).
    { apply (NoDup_all_equal _ v); [apply NoDup_remove_dups|].
      intros x Hx. apply elem_of_remove_dups, list_elem_of_filter in Hx as [? ?].
      by apply Hall. }
    destruct (remove_dups (filter notna s)); simpl in *; [|lia].
    by apply elem_of_nil in Hin.
Qed.

(** ** Claims about pruning *)

Lemma candidate_labels : columns_to_drop = candidate_columns.
Proof. reflexivity. Qed.

(** C3 (with missing cells left out).  Each of the three candidate columns
    (EmployeeCount, StandardHours, Over18) that is in the table is gone
    after the pruning loop if and only if its cells hold exactly one
    distinct value, where a missing cell holds none, as [nunique] counts;
    for a column without missing cells this is the plain count of distinct
    cells.  A column with two different values stays as it is. *)
Theorem pruned_iff_single_valued df c s :
  c ∈ candidate_columns →
  lookup_col c (cols df) = Some s →
  ∃ out df', prune_constant_columns df = (out, inr df')
    ∧ (c ∉ columns df' ↔ single_valued s)
    ∧ (VNaN ∉ s → (c ∉ columns df' ↔ length (remove_dups s) = 1))
    ∧ (∀ a b, a ∈ s → b ∈ s → a ≠ VNaN → b ≠ VNaN → a ≠ b →
       lookup_col c (cols df') = Some s).
Proof.
  intros Hc Hs. rewrite <- candidate_labels in Hc.
  unfold prune_constant_columns.
  destruct (prune_spec columns_to_drop df) as [out Hout].
  match type of Hout with _ = (_, inr ?d) => set (df' := d) in * end.
  exists out, df'. split; [exact Hout|].
  pose proof (prune_lookup _ _ _ _ c Hout) as Hl.
  assert (dropped columns_to_drop df c ↔ single_valued s) as Hd.
  { unfold dropped, constant. rewrite Hs, nunique_one. tauto. }
  assert (c ∉ columns df' ↔ single_valued s) as Hiff.
  { unfold columns. rewrite <- lookup_col_None, Hl.
    destruct (decide (dropped columns_to_drop df c)) as [Hy|Hn].
    - split; [intros _; by apply Hd | done].
    - rewrite Hs. split; [done | intros Hsv; by apply Hd in Hsv]. }
  split; [exact Hiff|]. split.
  - intros Hnan. rewrite Hiff, <- nunique_one. unfold nunique.
    rewrite filter_all; [done|]. intros x Hx ->. done.
  - intros a b Ha Hb Hna Hnb Hab. rewrite Hl, decide_False; [done|].
    rewrite Hd. intros (v & _ & _ & Hall).
    apply Hab. by rewrite (Hall a), (Hall b).
Qed.

(** C3 (as stated) fails when cells are missing: EmployeeCount with cells
    1 and NaN holds two distinct cell contents and is dropped, and Over18
    with nothing but NaN holds one and is kept. *)
Lemma pruning_ignores_missing_cells :
  lookup_col "EmployeeCount" (cols with_gap) = Some [VInt 1; VNaN]
  ∧ length (remove_dups [VInt 1; VNaN]) = 2
  ∧ (∃ out df', prune_constant_columns with_gap = (out, inr df')
       ∧ ("EmployeeCount" ∉ columns df'))
  ∧ lookup_col "Over18" (cols all_missing) = Some [VNaN; VNaN]
  ∧ length (remove_dups [VNaN; VNaN]) = 1
  ∧ prune_constant_columns all_missing = ([], inr all_missing)
  ∧ ¬ pruned_iff_one_content.
Proof.
  assert (∃ out df', prune_constant_columns with_gap = (out, inr df')
            ∧ ("EmployeeCount" ∉ columns df')) as Hgap.
  { eexists _, _. split; [vm_compute; reflexivity|].
    apply (bool_decide_unpack _). by vm_compute. }
  split; [reflexivity|]. split; [reflexivity|]. split; [exact Hgap|].
  split; [reflexivity|]. split; [reflexivity|].
  split; [by vm_compute|].
  intros Hclaim. destruct Hgap as (out & df' & Hrun & Hgone).
  assert (length (remove_dups [VInt 1; VNaN]) = 1) as Hone; [|done].
  apply (Hclaim with_gap "EmployeeCount" [VInt 1; VNaN] out df');
    [apply (bool_decide_unpack _); by vm_compute | reflexivity | exact Hrun
    | exact Hgone].
Qed.

(** C4.  Pruning twice gives the table that pruning once gives: on the
    pruned table the loop drops nothing and prints nothing. *)
Theorem prune_idempotent df :
  ∃ out df', prune_constant_columns df = (out, inr df')
    ∧ prune_constant_columns df' = ([], inr df').
Proof.
  unfold prune_constant_columns.
  destruct (prune_spec columns_to_drop df) as [out Hout].
  eexists _, _. split; [exact Hout|].
  apply prune_noop. intros c Hc Hconst. unfold constant in Hconst.
  rewrite (prune_lookup _ _ _ _ c Hout) in Hconst.
  destruct (decide (dropped columns_to_drop df c)) as [Hy|Hn]; [done|].
  apply Hn. split; [done|]. exact Hconst.
Qed.

(** C9.  The pruning loop always ends normally.  A candidate that is not in
    the table is passed over without a message, the columns that are not
    candidates keep their place and content, and a table with none of the
    candidates comes back as it was. *)
Theorem prune_skips_absent df :
  ∃ out df', prune_constant_columns df = (out, inr df')
    ∧ (∀ c, c ∉ columns df → prune_column df c = ([], inr df))
    ∧ (∀ c, c ∉ columns df → c ∉ columns df')
    ∧ (∀ c, c ∉ columns_to_drop →
         lookup_col c (cols df') = lookup_col c (cols df))
    ∧ filter (λ p, p.1 ∉ columns_to_drop) (cols df')
      = filter (λ p, p.1 ∉ columns_to_drop) (cols df)
    ∧ nrows df' = nrows df
    ∧ ((∀ c, c ∈ columns_to_drop → c ∉ columns df) → out = [] ∧ df' = df).
Proof.
  unfold prune_constant_columns.
  destruct (prune_spec columns_to_drop df) as [out Hout].
  eexists _, _. split; [exact Hout|].
  split; [|split; [|split; [|split; [|split]]]].
  - intros c Hc. apply prune_column_not_constant.
    intros Hconst. by apply Hc, constant_in_columns.
  - intros c. unfold columns. rewrite <- !lookup_col_None.
    rewrite (prune_lookup _ _ _ _ c Hout). intros ->. by case_decide.
  - intros c Hc. rewrite (prune_lookup _ _ _ _ c Hout).
    rewrite decide_False; [done|]. by intros [? _].
  - simpl. rewrite list_filter_filter. apply list_filter_iff.
    intros [c s]. simpl. unfold dropped. tauto.
  - done.
  - intros Habs. rewrite prune_noop in Hout.
    + by injection Hout as <- <-.
    + intros c Hc Hconst. by apply (Habs c Hc), constant_in_columns.
Qed.

(** ** Assignment to a column *)

Lemma lookup_col_assign c c' s l :
  lookup_col c' (assign c s l)
  = if decide (c' = c) then Some s else lookup_col c' l.
Proof.
  induction l as [|[c0 s0] l IH]; simpl.
  - destruct (decide (c = c')), (decide (c' = c)); congruence.
  - destruct (decide (c0 = c)) as [->|Hne]; simpl.
    + destruct (decide (c = c')), (decide (c' = c)); congruence.
    + destruct (decide (c0 = c')) as [->|Hne']; [|done].
      by rewrite decide_False.
Qed.

Lemma assign_labels c s l : c ∈ l.*1 → (assign c s l).*1 = l.*1.
Proof.
  induction l as [|[c0 s0] l IH]; simpl; intros Hin.
  - by apply elem_of_nil in Hin.
  - destruct (decide (c0 = c)) as [->|Hne]; simpl; [done|].
    f_equal. apply IH. apply elem_of_cons in Hin as [->|]; done.
Qed.

Lemma assign_comm c1 c2 s1 s2 l :
  c1 ≠ c2 → c1 ∈ l.*1 →
  assign c1 s1 (assign c2 s2 l) = assign c2 s2 (assign c1 s1 l).
Proof.
  intros Hne. induction l as [|[c0 s0] l IH]; simpl; intros Hin.
  - by apply elem_of_nil in Hin.
  - destruct (decide (c0 = c2)) as [E2|H2], (decide (c0 = c1)) as [E1|H1];
      simplify_eq; simpl.
    + by rewrite decide_False, decide_True.
    + by rewrite decide_True, decide_False.
    + rewrite !decide_False by done. f_equal. apply IH.
      apply elem_of_cons in Hin as [->|]; done.
Qed.

(** ** Recoding *)

Lemma recode_column_present df c d s :
  lookup_col c (cols df) = Some s →
  recode_column df (c, d) = ([], inr (setitem df c (Series_map d s))).
Proof.
  intros Hs. unfold recode_column. simpl.
  by rewrite (getitem_Some _ _ _ Hs), bind_ret.
Qed.

Lemma recode_column_absent df c d :
  c ∉ columns df →
  recode_column df (c, d) = ([], inl (Raise (KeyError c))).
Proof.
  intros Hc. apply lookup_col_None in Hc. unfold recode_column. simpl.
  by rewrite (getitem_None _ _ Hc).
Qed.

Lemma setitem_columns df c s :
  c ∈ columns df → columns (setitem df c s) = columns df.
Proof. apply assign_labels. Qed.

(** Two assignments to different columns that are both in the table can
    be exchanged. *)
Lemma recode_column_comm df x y (k : DataFrame → M DataFrame) :
  x.1 ≠ y.1 → x.1 ∈ columns df → y.1 ∈ columns df →
  (df1 ← recode_column df x; df2 ← recode_column df1 y; k df2)
  = (df1 ← recode_column df y; df2 ← recode_column df1 x; k df2).
Proof.
  destruct x as [c1 d1], y as [c2 d2]. simpl. intros Hne H1 H2.
  destruct (proj2 (lookup_col_is_Some _ _) H1) as [s1 Hs1].
  destruct (proj2 (lookup_col_is_Some _ _) H2) as [s2 Hs2].
  rewrite (recode_column_present _ _ _ _ Hs1), (recode_column_present _ _ _ _ Hs2).
  rewrite !bind_pure. simpl.
  rewrite (recode_column_present _ c2 d2 s2), (recode_column_present _ c1 d1 s1);
    [|simpl; by rewrite lookup_col_assign, decide_False
     |simpl; by rewrite lookup_col_assign, decide_False].
  rewrite !bind_pure. simpl. unfold setitem. simpl.
  by rewrite (assign_comm c2 c1) by done.
Qed.

Lemma recode_with_perm s1 s2 :
  s1 ≡ₚ s2 → NoDup s1.*1 →
  ∀ df, (∀ c, c ∈ s1.*1 → c ∈ columns df) →
  for_each s1 recode_column df = for_each s2 recode_column df.
Proof.
  induction 1 as [|x l l' Hp IH|x y l|l l' l'' Hp1 IH1 Hp2 IH2];
    intros Hnd df Hin.
  - done.
  - simpl. rewrite fmap_cons in Hnd, Hin. apply NoDup_cons in Hnd as [_ Hnd].
    destruct x as [c d].
    destruct (proj2 (lookup_col_is_Some _ _) (Hin c ltac:(left))) as [s Hs].
    rewrite (recode_column_present _ _ _ _ Hs), !bind_pure. simpl.
    rewrite IH; [done | done |].
    intros c' Hc'. rewrite setitem_columns by (apply Hin; left).
    apply Hin. by right.
  - simpl. rewrite !fmap_cons in Hnd, Hin.
    apply NoDup_cons in Hnd as [Hxy _].
    apply (recode_column_comm df y x (for_each l recode_column)).
    + intros Heq. apply Hxy. rewrite Heq. left.
    + apply Hin. left.
    + apply Hin. right. left.
  - rewrite IH1 by done. apply IH2.
    + by rewrite <- Hp1.
    + intros c Hc. apply Hin. by rewrite Hp1.
Qed.

(** What the assignments leave behind, column by column. *)
Lemma recode_with_lookup steps df :
  NoDup steps.*1 →
  (∀ c, c ∈ steps.*1 → c ∈ columns df) →
  ∃ df', for_each steps recode_column df = ([], inr df')
    ∧ columns df' = columns df
    ∧ nrows df' = nrows df
    ∧ (∀ c d, (c, d) ∈ steps →
         lookup_col c (cols df') = Series_map d <$> lookup_col c (cols df))
    ∧ (∀ c, c ∉ steps.*1 → lookup_col c (cols df') = lookup_col c (cols df)).
Proof.
  revert df. induction steps as [|[c0 d0] steps IH]; intros df Hnd Hin.
  - exists df. split; [done|]. split; [done|]. split; [done|].
    split; [|done]. intros c d Hcd. by apply elem_of_nil in Hcd.
  - rewrite fmap_cons in Hnd, Hin. simpl in Hnd, Hin.
    apply NoDup_cons in Hnd as [Hc0 Hnd].
    assert (c0 ∈ columns df) as Hc0in by (apply Hin; left).
    destruct (proj2 (lookup_col_is_Some _ _) Hc0in) as [s0 Hs0].
    destruct (IH (setitem df c0 (Series_map d0 s0)) Hnd)
      as (df' & Hrun & Hcols & Hrows & Hmapped & Hother).
    { intros c Hc. rewrite setitem_columns by done. apply Hin. by right. }
    exists df'. simpl.
    rewrite (recode_column_present _ _ _ _ Hs0), bind_pure, Hrun. simpl.
    split; [done|]. split; [by rewrite Hcols, setitem_columns|].
    split; [done|]. split.
    + intros c d Hcd. apply elem_of_cons in Hcd as [[= -> ->]|Hcd].
      * rewrite Hother by done. simpl.
        by rewrite lookup_col_assign, decide_True, Hs0.
      * rewrite (Hmapped _ _ Hcd). simpl.
        rewrite lookup_col_assign, decide_False; [done|].
        intros ->. apply Hc0. by apply (list_elem_of_fmap_2 fst _ (c0, d)).
    + intros c Hc. apply not_elem_of_cons in Hc as [Hne Hc].
      rewrite (Hother _ Hc). simpl.
      by rewrite lookup_col_assign, decide_False.
Qed.

Lemma recode_steps_NoDup : NoDup recode_steps.*1.
Proof. apply (bool_decide_unpack _). by vm_compute. Qed.

(** When one of the columns is not there the assignments stop with a
    KeyError for the first label, in the order run, that is missing. *)
Lemma recode_with_missing steps df :
  (∃ c, c ∈ steps.*1 ∧ c ∉ columns df) →
  ∃ c, c ∈ steps.*1 ∧ (c ∉ columns df)
    ∧ for_each steps recode_column df = ([], inl (Raise (KeyError c))).
Proof.
  revert df. induction steps as [|[c0 d0] steps IH]; intros df (c & Hc & Hmiss).
  - by apply elem_of_nil in Hc.
  - rewrite fmap_cons in Hc. simpl in Hc.
    destruct (decide (c0 ∈ columns df)) as [Hin|Hout].
    + apply elem_of_cons in Hc as [->|Hc]; [done|].
      destruct (proj2 (lookup_col_is_Some _ _) Hin) as [s0 Hs0].
      destruct (IH (setitem df c0 (Series_map d0 s0))) as (c' & Hc' & Hmiss' & Hrun).
      { exists c. split; [done|]. by rewrite setitem_columns. }
      exists c'. rewrite setitem_columns in Hmiss' by done.
      split; [rewrite fmap_cons; by right|]. split; [done|]. simpl.
      by rewrite (recode_column_present _ _ _ _ Hs0), bind_pure, Hrun.
    + exists c0. split; [rewrite fmap_cons; left|]. split; [done|]. simpl.
      by rewrite (recode_column_absent _ _ _ Hout).
Qed.

(** ** Tables stay well formed *)

Lemma prune_well_formed df out df' :
  well_formed df →
  prune_constant_columns df = (out, inr df') → well_formed df'.
Proof.
  intros [Hnd Hlen] Hrun. unfold prune_constant_columns in Hrun.
  destruct (prune_spec columns_to_drop df) as [out' Hspec].
  rewrite Hspec in Hrun. injection Hrun as _ <-.
  split; simpl.
  - unfold columns in *. simpl.
    eapply sublist_NoDup; [exact Hnd | apply fmap_sublist, sublist_filter].
  - rewrite Forall_forall in Hlen |- *. intros p Hp.
    apply list_elem_of_filter in Hp as [_ Hp]. by apply Hlen.
Qed.

Lemma assign_NoDup c s l : NoDup l.*1 → NoDup (assign c s l).*1.
Proof.
  destruct (decide (c ∈ l.*1)) as [Hin|Hout].
  - by rewrite assign_labels.
  - induction l as [|[c0 s0] l IH]; simpl; intros Hnd.
    + apply NoDup_singleton.
    + rewrite fmap_cons in Hout. simpl in Hout.
      apply not_elem_of_cons in Hout as [Hne Hout].
      rewrite decide_False by done. rewrite !fmap_cons in *. simpl in *.
      apply NoDup_cons in Hnd as [Hc0 Hnd]. apply NoDup_cons. split.
      * clear IH Hnd. induction l as [|[c1 s1] l IHl]; simpl.
        -- rewrite list_elem_of_singleton. congruence.
        -- rewrite fmap_cons in Hc0, Hout. simpl in Hc0, Hout.
           apply not_elem_of_cons in Hc0 as [? ?].
           apply not_elem_of_cons in Hout as [? ?].
           rewrite decide_False by done. rewrite fmap_cons. simpl.
           rewrite not_elem_of_cons. auto.
      * by apply IH.
Qed.

Lemma assign_Forall (P : string * list value → Prop) c s l :
  P (c, s) → Forall P l → Forall P (assign c s l).
Proof.
  intros Hcs. induction 1 as [|[c0 s0] l H0 Hl IH]; simpl.
  - by constructor.
  - destruct (decide (c0 = c)); by constructor.
Qed.

Lemma recode_well_formed df df' :
  well_formed df →
  recode_ordinals df = ([], inr df') → well_formed df'.
Proof.
  unfold recode_ordinals, recode_with. generalize recode_steps as steps.
  intros steps. revert df.
  induction steps as [|[c d] steps IH]; intros df Hwf Hrun.
  - by injection Hrun as <-.
  - simpl in Hrun. destruct (lookup_col c (cols df)) as [s|] eqn:Hs.
    + rewrite (recode_column_present _ _ _ _ Hs), bind_pure in Hrun.
      simpl in Hrun. rewrite run_eta_pair in Hrun.
      apply (IH (setitem df c (Series_map d s))); [|done].
      destruct Hwf as [Hnd Hlen]. split.
      * by apply assign_NoDup.
      * simpl. apply assign_Forall; [|done]. simpl.
        unfold Series_map. rewrite length_fmap.
        rewrite Forall_forall in Hlen.
        clear -Hs Hlen. revert Hs. generalize (cols df) Hlen. clear Hlen.
        induction l as [|[c0 s0] l IHl]; simpl; intros Hlen Hs; [done|].
        destruct (decide (c0 = c)) as [->|Hne].
        -- injection Hs as <-. apply (Hlen (c, s0)). left.
        -- apply IHl; [|done]. intros p Hp. apply Hlen. by right.
    + apply lookup_col_None in Hs.
      by rewrite (recode_column_absent _ _ _ Hs) in Hrun.
Qed.

(** ** The mapping tables *)

Ltac table_lookup :=
  repeat (rewrite lookup_insert; case_decide; [subst|]);
  rewrite ?lookup_singleton, ?lookup_empty; repeat case_decide; subst.

(** The keys of the tables: 1 to 5 for Education, 1 to 4 for the others. *)
Lemma table_domain c d k :
  (c, d) ∈ recode_steps →
  is_Some (d !! k) ↔ (1 ≤ k ≤ if decide (c = "Education") then 5 else 4)%Z.
Proof.
  intros Hcd. unfold recode_steps in Hcd.
  repeat (apply elem_of_cons in Hcd as [[= -> ->]|Hcd]);
    [..|by apply elem_of_nil in Hcd];
    (split; [intros [l Hl]|intros Hk]);
    try (assert (k = 1 ∨ k = 2 ∨ k = 3 ∨ k = 4 ∨ k = 5)%Z as Hcase
           by (simpl in Hk; lia);
         destruct Hcase as [-> | [-> | [-> | [-> | ->]]]];
         first [by eexists | simpl in Hk; lia]);
    unfold education_map, environment_satisfaction_map, job_involvement_map,
      job_satisfaction_map, performance_rating_map,
      relationship_satisfaction_map, work_life_balance_map in Hl;
    revert Hl; table_lookup; simpl; try lia; done.
Qed.

Lemma map_value_valid d k l : d !! k = Some l → map_value d (VInt k) = VStr l.
Proof. simpl. by intros ->. Qed.

Lemma map_value_invalid d v : ¬ valid_code d v → map_value d v = VNaN.
Proof.
  intros Hv. destruct v as [k| |]; simpl; try done.
  destruct (d !! k) eqn:Hk; [|done]. exfalso. apply Hv. exists k. eauto.
Qed.

Lemma map_value_twice d v : map_value d (map_value d v) = VNaN.
Proof. destruct v as [k| |]; simpl; try done. by destruct (d !! k). Qed.

Lemma Series_map_twice d s :
  Series_map d (Series_map d s) = replicate (length s) VNaN.
Proof.
  unfold Series_map. induction s as [|v s IH]; [done|].
  rewrite !fmap_cons, map_value_twice, IH. done.
Qed.

(** ** The columns and tables by name *)

Lemma ordinal_labels : recode_steps.*1 = ordinal_columns.
Proof. reflexivity. Qed.

Lemma ordinal_step c : c ∈ ordinal_columns → (c, mapping c) ∈ recode_steps.
Proof.
  revert c. apply Forall_forall. apply (bool_decide_unpack _). by vm_compute.
Qed.

Lemma mapping_domain c k :
  c ∈ ordinal_columns →
  is_Some (mapping c !! k) ↔ (1 ≤ k ≤ code_bound c)%Z.
Proof. intros Hc. apply (table_domain c (mapping c) k), ordinal_step, Hc. Qed.

Lemma has_ordinal_columns_steps df :
  has_ordinal_columns df → ∀ c, c ∈ recode_steps.*1 → c ∈ columns df.
Proof. intros Hin. by apply Forall_forall. Qed.

(** ** Claims about recoding *)

(** C2.  On a table that has the seven ordinal columns (Education,
    EnvironmentSatisfaction, JobInvolvement, JobSatisfaction,
    PerformanceRating, RelationshipSatisfaction, WorkLifeBalance) the
    recoding ends normally.  The valid codes of each of them are 1 to 5
    for Education and 1 to 4 for the others; each of the seven columns
    becomes its image under its own table, cell by cell, so that a valid
    code [k] is replaced by the label the table gives for [k]; every other
    column is untouched; and running the seven assignments in any other
    order gives the same table. *)
Theorem recode_by_table df steps :
  steps ≡ₚ recode_steps →
  has_ordinal_columns df →
  ∃ df', recode_ordinals df = ([], inr df')
    ∧ recode_with steps df = ([], inr df')
    ∧ columns df' = columns df
    ∧ (∀ c, c ∈ ordinal_columns →
         (∀ k, is_Some (mapping c !! k) ↔ (1 ≤ k ≤ code_bound c)%Z)
         ∧ ∃ s, lookup_col c (cols df) = Some s
             ∧ lookup_col c (cols df') = Some (Series_map (mapping c) s)
             ∧ (∀ i, Series_map (mapping c) s !! i
                     = map_value (mapping c) <$> s !! i)
             ∧ (∀ i k l, s !! i = Some (VInt k) → mapping c !! k = Some l →
                  Series_map (mapping c) s !! i = Some (VStr l)))
    ∧ (∀ c, c ∉ ordinal_columns →
         lookup_col c (cols df') = lookup_col c (cols df)).
Proof.
  intros Hperm Hin. pose proof (has_ordinal_columns_steps df Hin) as Hin'.
  destruct (recode_with_lookup recode_steps df recode_steps_NoDup Hin')
    as (df' & Hrun & Hcols & _ & Hmapped & Hother).
  exists df'. split; [exact Hrun|]. split.
  { unfold recode_with. rewrite <- Hrun. symmetry.
    apply recode_with_perm; [by symmetry | apply recode_steps_NoDup | done]. }
  split; [done|]. split; [|exact Hother].
  intros c Hc. split; [intros k; by apply mapping_domain|].
  assert (c ∈ columns df) as Hcin by (apply Hin'; by rewrite ordinal_labels).
  apply lookup_col_is_Some in Hcin as [s Hs]. exists s.
  split; [done|]. rewrite (Hmapped _ _ (ordinal_step c Hc)), Hs.
  split; [done|]. unfold Series_map. split.
  - intros i. apply list_lookup_fmap.
  - intros i k l Hi Hk. rewrite list_lookup_fmap, Hi. simpl. by rewrite Hk.
Qed.



(** C10.  On a table whose seven ordinal columns (Education,
    EnvironmentSatisfaction, JobInvolvement, JobSatisfaction,
    PerformanceRating, RelationshipSatisfaction, WorkLifeBalance) hold
    valid codes, the first recoding turns every cell of each of the seven
    into a label and a second recoding turns every one of these cells
    into NaN; a column with at least one cell is therefore not the same
    after the second recoding as after the first. *)
Theorem recode_twice_all_NaN df :
  holds_valid_codes df →
  ∃ df1 df2, recode_ordinals df = ([], inr df1)
    ∧ recode_ordinals df1 = ([], inr df2)
    ∧ ∀ c, c ∈ ordinal_columns →
        ∃ s s1, lookup_col c (cols df) = Some s
          ∧ lookup_col c (cols df1) = Some s1
          ∧ length s1 = length s
          ∧ Forall is_label s1
          ∧ lookup_col c (cols df2) = Some (replicate (length s) VNaN)
          ∧ (s ≠ [] → lookup_col c (cols df2) ≠ lookup_col c (cols df1)).
Proof.
  intros Hvalid0.
  assert (∀ c, c ∈ ordinal_columns →
            ∃ s, lookup_col c (cols df) = Some s
                 ∧ Forall (valid_code (mapping c)) s) as Hvalid.
  { intros c Hc. unfold holds_valid_codes in Hvalid0.
    rewrite Forall_forall in Hvalid0. specialize (Hvalid0 _ Hc).
    destruct (lookup_col c (cols df)); [eauto | done]. }
  assert (∀ c, c ∈ recode_steps.*1 → c ∈ columns df) as Hin.
  { intros c Hc. rewrite ordinal_labels in Hc.
    destruct (Hvalid _ Hc) as (s & Hs & _).
    apply lookup_col_is_Some. eauto. }
  destruct (recode_with_lookup recode_steps df recode_steps_NoDup Hin)
    as (df1 & Hrun1 & Hcols1 & _ & Hmapped1 & _).
  destruct (recode_with_lookup recode_steps df1 recode_steps_NoDup)
    as (df2 & Hrun2 & _ & _ & Hmapped2 & _).
  { intros c Hc. rewrite Hcols1. by apply Hin. }
  exists df1, df2. split; [exact Hrun1|]. split; [exact Hrun2|].
  intros c Hc. destruct (Hvalid _ Hc) as (s & Hs & Hall).
  pose proof (ordinal_step c Hc) as Hcd.
  exists s, (Series_map (mapping c) s).
  rewrite (Hmapped2 _ _ Hcd), (Hmapped1 _ _ Hcd), Hs. simpl.
  rewrite Series_map_twice.
  split; [done|]. split; [done|].
  split; [unfold Series_map; by rewrite length_fmap|].
  split; [|split; [done|]].
  - unfold Series_map. apply Forall_fmap. eapply Forall_impl; [exact Hall|].
    intros v (k & -> & l & Hl). exists l. simpl. by rewrite Hl.
  - intros Hne [= Heq]. destruct s as [|v s']; [done|].
    apply Forall_cons in Hall as [(k & -> & l & Hl) _].
    simpl in Heq. rewrite Hl in Heq. done.
Qed.

(** ** Counting labels *)

Lemma lookup_label_fmap (f : value → nat) v l :
  lookup_label v ((λ x, (x, f x)) <$> l)
  = if decide (v ∈ l) then Some (f v) else None.
Proof.
  induction l as [|x l IH].
  - destruct (decide (v ∈ [])) as [Hin|]; [by apply elem_of_nil in Hin | done].
  - rewrite fmap_cons. simpl lookup_label.
    destruct (decide (x = v)) as [->|Hne].
    + rewrite decide_True; [done | left].
    + rewrite IH. apply decide_ext. rewrite elem_of_cons. intuition congruence.
Qed.

Lemma count_of_zero v s : count_of v s = 0 ↔ v ∉ s.
Proof.
  unfold count_of. induction s as [|x s IH]; simpl.
  - split; [intros _; apply not_elem_of_nil | done].
  - rewrite filter_cons, not_elem_of_cons.
    destruct (decide (x = v)) as [->|Hne]; simpl.
    + split; [lia | intros [? _]; done].
    + rewrite IH. split; [intros ?; split; [congruence | done] | intros [_ ?]; done].
Qed.

Lemma count_of_all v s : (∀ x, x ∈ s → x = v) → count_of v s = length s.
Proof.
  intros Hall. unfold count_of. by rewrite filter_all.
Qed.

Lemma value_counts_lookup v s :
  v ≠ VNaN →
  lookup_label v (value_counts s)
  = if decide (count_of v s = 0) then None else Some (count_of v s).
Proof.
  intros Hna. unfold value_counts.
  rewrite (lookup_label_fmap (λ x, count_of x s)).
  destruct (decide (count_of v s = 0)) as [Hz|Hnz].
  - apply decide_False. rewrite elem_of_remove_dups, list_elem_of_filter.
    intros [_ Hin]. by apply count_of_zero in Hz.
  - apply decide_True. rewrite elem_of_remove_dups, list_elem_of_filter.
    split; [done|]. destruct (decide (v ∈ s)) as [|Hn]; [done|].
    by apply count_of_zero in Hn.
Qed.

(** ** The attrition rate *)

(** Lines 92-93 on a table with an Attrition column: a KeyError when no
    cell says Yes, the quotient times 100 otherwise. *)
Lemma attrition_rate_spec df s :
  lookup_col "Attrition" (cols df) = Some s →
  attrition_rate df
  = ([], if decide (count_of Yes s = 0) then inl (Raise (KeyError "Yes"))
         else inr (rate_of (count_of Yes s) (nrows df))).
Proof.
  intros Hs. unfold attrition_rate.
  rewrite (getitem_Some _ _ _ Hs), bind_ret. unfold loc.
  rewrite (value_counts_lookup (VStr "Yes")) by done. fold Yes.
  by destruct (decide (count_of Yes s = 0)).
Qed.

(** With at least one Yes the rate is the binary64 value of the number of
    Yes cells over the number of rows, times 100. *)
Lemma attrition_rate_formula df s :
  well_formed df →
  lookup_col "Attrition" (cols df) = Some s →
  Yes ∈ s →
  attrition_rate df = ([], inr (rate_of (count_of Yes s) (length s))).
Proof.
  intros [_ Hlen] Hs Hyes.
  assert (length s = nrows df) as Hn.
  { clear Hyes. rewrite Forall_forall in Hlen.
    revert Hs. generalize (cols df) Hlen. clear Hlen.
    induction l as [|[c s0] l IH]; simpl; intros Hlen Hs; [done|].
    destruct (decide (c = "Attrition")) as [->|Hne].
    - injection Hs as <-. apply (Hlen ("Attrition", s0)). left.
    - apply IH; [|done]. intros p Hp. apply Hlen. by right. }
  rewrite (attrition_rate_spec _ _ Hs), Hn.
  by rewrite decide_False by (rewrite count_of_zero; tauto).
Qed.

(** C1.  On a staff where nobody left the attrition rate is not computed
    as 0: the count of Yes is looked up in a table of counts that has no
    Yes entry, which raises KeyError, at the stage and in the whole script
    alike.  (With at least one Yes the rate is the share of Yes records
    times 100, in binary64: [attrition_rate_formula].) *)
Theorem attrition_rate_without_Yes :
  attrition_rate nobody_left = ([], inl (Raise (KeyError "Yes")))
  ∧ outcome (script {[ csv_path := Csv nobody_left ]})
    = inl (Raise (KeyError "Yes")).
Proof. split; by vm_compute. Qed.

(** ** Running the script *)

Lemma outcome_bind {A B} (m : M A) (k : A → M B) :
  outcome (m ≫= k)
  = match outcome m with inl s => inl s | inr a => outcome (k a) end.
Proof. by destruct m as [o [s|a]]. Qed.

Lemma output_bind {A B} (m : M A) (k : A → M B) :
  output (m ≫= k)
  = output m ++ match outcome m with inl _ => [] | inr a => output (k a) end.
Proof. destruct m as [o [s|a]]; simpl; [by rewrite app_nil_r | done]. Qed.

Lemma run_eta {A} (m : M A) : m = (output m, outcome m).
Proof. by destruct m. Qed.

Lemma load_csv fs df :
  fs !! csv_path = Some (Csv df) →
  load fs = ([Text ("Dataset loaded successfully." +:+ nl)], inr df).
Proof. intros H. unfold load, read_csv. by rewrite H. Qed.

Lemma load_unavailable fs :
  unavailable fs →
  (fs !! csv_path = None ∧ load fs = (not_found_report, inl Exit))
  ∨ (fs !! csv_path ≠ None
     ∧ ∃ e, e ≠ FileNotFoundError ∧ load fs = ([], inl (Raise e))).
Proof.
  unfold unavailable, load, read_csv.
  destruct (fs !! csv_path) as [[df| | | |]|]; intros Hun; try done;
    first [ left; split; reflexivity
          | right; split; [done|]; eexists; split; [|reflexivity]; done ].
Qed.

Lemma explore_outcome df : outcome (explore df) = inr tt.
Proof. reflexivity. Qed.

(** After a successful load the table the script goes on with is the one
    the two cleaning passes make of the parsed file. *)
Lemma prepare_outcome fs df :
  fs !! csv_path = Some (Csv df) →
  outcome (prepare fs) = outcome (clean df).
Proof.
  intros Hfs. unfold prepare. rewrite (load_csv _ _ Hfs).
  rewrite outcome_bind. simpl outcome at 1. cbv beta iota.
  rewrite outcome_bind, explore_outcome, outcome_bind.
  by destruct (outcome (clean df)).
Qed.

Lemma recode_labels_not_candidates c :
  c ∈ recode_steps.*1 → c ∉ columns_to_drop.
Proof.
  revert c. apply Forall_forall. apply (bool_decide_unpack _). by vm_compute.
Qed.

Lemma clean_spec df :
  has_ordinal_columns df →
  ∃ out df1 df',
    prune_constant_columns df = (out, inr df1)
    ∧ clean df = (out, inr df')
    ∧ nrows df' = nrows df
    ∧ (∀ c, lookup_col c (cols df1)
            = if decide (dropped columns_to_drop df c) then None
              else lookup_col c (cols df))
    ∧ (∀ c d, (c, d) ∈ recode_steps →
         lookup_col c (cols df') = Series_map d <$> lookup_col c (cols df))
    ∧ (∀ c, c ∉ recode_steps.*1 →
         lookup_col c (cols df') = lookup_col c (cols df1)).
Proof.
  intros Hin. unfold has_ordinal_columns in Hin. rewrite Forall_forall in Hin.
  destruct (prune_spec columns_to_drop df) as [out Hout].
  set (df1 := {| cols := filter (λ p, ¬ dropped columns_to_drop df p.1) (cols df);
                 nrows := nrows df |}) in *.
  assert (∀ c, lookup_col c (cols df1)
               = if decide (dropped columns_to_drop df c) then None
                 else lookup_col c (cols df)) as Hl1
    by (intros c; apply (prune_lookup _ _ _ _ c Hout)).
  assert (∀ c, c ∈ recode_steps.*1 →
               lookup_col c (cols df1) = lookup_col c (cols df)) as Hkeep.
  { intros c Hc. rewrite Hl1, decide_False; [done|].
    intros [Hd _]. by apply (recode_labels_not_candidates c). }
  destruct (recode_with_lookup recode_steps df1 recode_steps_NoDup)
    as (df' & Hrun & _ & Hrows & Hmapped & Hother).
  { intros c Hc. apply lookup_col_is_Some. rewrite (Hkeep c Hc).
    apply lookup_col_is_Some. by apply Hin. }
  exists out, df1, df'. split; [exact Hout|]. split.
  { unfold clean, prune_constant_columns. rewrite Hout, bind_pure.
    unfold recode_ordinals, recode_with. rewrite Hrun. simpl.
    by rewrite app_nil_r. }
  split; [done|]. split; [done|]. split; [|done].
  intros c d Hcd. rewrite (Hmapped _ _ Hcd), Hkeep; [done|].
  by apply (list_elem_of_fmap_2 fst _ (c, d)).
Qed.

(** ** Claims about the run as a whole *)

(** C5 (as the script has it).  When no table can be read from the path the
    run stops at the load: there is no table, and neither the preparation
    nor the attrition rate prints anything.  A missing file is the one
    failure the script reports, with two lines and [exit()]; any other
    failure is an exception of another kind that the [except] clause lets
    through, with nothing printed. *)
Theorem load_failure_stops fs :
  unavailable fs →
  ∃ out s, load fs = (out, inl s)
    ∧ prepare fs = (out, inl s)
    ∧ script fs = (out, inl s)
    ∧ (fs !! csv_path = None → s = Exit ∧ out = not_found_report)
    ∧ (fs !! csv_path ≠ None →
         out = [] ∧ ∃ e, s = Raise e ∧ e ≠ FileNotFoundError).
Proof.
  intros Hun.
  destruct (load_unavailable fs Hun) as [[Hnone Hload]|[Hsome (e & He & Hload)]].
  - exists not_found_report, Exit. unfold script, prepare. rewrite Hload.
    repeat split; done.
  - exists [], (Raise e). unfold script, prepare. rewrite Hload.
    repeat split; try done. eauto.
Qed.

(** C5 (as stated) fails: an empty file cannot be parsed, and the load
    then ends in an uncaught EmptyDataError, not in the reported exit of
    a missing file; failed loads do not end in a single way. *)
Lemma load_failures_differ :
  unavailable {[ csv_path := Empty ]}
  ∧ load {[ csv_path := Empty ]} = ([], inl (Raise EmptyDataError))
  ∧ load ∅ = (not_found_report, inl Exit)
  ∧ ¬ single_failure_kind.
Proof.
  split; [by vm_compute|]. split; [by vm_compute|]. split; [by vm_compute|].
  intros [s Hs].
  assert (unavailable (∅ : gmap string file)) as U1 by (by vm_compute).
  assert (unavailable {[ csv_path := Empty ]}) as U2 by (by vm_compute).
  apply Hs in U1, U2. vm_compute in U1, U2. congruence.
Qed.

(** C7 (on the full schema).  For a file of three rows with EmployeeCount
    1, 1, 1, Attrition Yes, No, Yes and Education 3, 4, 1 that also has the
    other six ordinal columns, the script ends normally: EmployeeCount is
    gone, Education reads Bachelor, Master, Below College, and the rate
    is printed as 66.67. *)
Theorem three_row_example fs df :
  fs !! csv_path = Some (Csv df) →
  nrows df = 3 →
  lookup_col "EmployeeCount" (cols df) = Some [VInt 1; VInt 1; VInt 1] →
  lookup_col "Attrition" (cols df) = Some [Yes; No; Yes] →
  lookup_col "Education" (cols df) = Some [VInt 3; VInt 4; VInt 1] →
  has_ordinal_columns df →
  ∃ out df' rate, script fs = (out, inr (df', rate))
    ∧ ("EmployeeCount" ∉ columns df')
    ∧ lookup_col "Education" (cols df')
      = Some [VStr "Bachelor"; VStr "Master"; VStr "Below College"]
    ∧ format_2f rate = "66.67"
    ∧ last out = Some (Text (nl +:+ "Overall Attrition Rate: 66.67%")).
Proof.
  intros Hfs Hrows Hcount Hattr Hedu Hin.
  destruct (clean_spec df Hin)
    as (o & df1 & df' & _ & Hclean & Hrows' & Hl1 & Hmapped & Hother).
  assert (lookup_col "Attrition" (cols df') = Some [Yes; No; Yes]) as Hattr'.
  { rewrite Hother by (apply (bool_decide_unpack _); by vm_compute).
    rewrite Hl1, decide_False; [done|].
    intros [Hd _]. revert Hd. apply (bool_decide_unpack _). by vm_compute. }
  assert (lookup_col "EmployeeCount" (cols df') = None) as Hcount'.
  { rewrite Hother by (apply (bool_decide_unpack _); by vm_compute).
    rewrite Hl1, decide_True; [done|]. split.
    - apply (bool_decide_unpack _). by vm_compute.
    - unfold constant. by rewrite Hcount. }
  pose proof (attrition_rate_spec df' _ Hattr') as Hrate.
  rewrite Hrows', Hrows in Hrate.
  change (count_of Yes [Yes; No; Yes]) with 2 in Hrate.
  rewrite decide_False in Hrate by done.
  pose proof (prepare_outcome fs df Hfs) as Hprep.
  rewrite Hclean in Hprep. simpl in Hprep.
  eexists (output (script fs)), df', _. split; [|split; [|split; [|split]]].
  - rewrite (run_eta (script fs)) at 1. f_equal.
    unfold script. rewrite outcome_bind, Hprep, Hrate. reflexivity.
  - by apply lookup_col_None.
  - rewrite (Hmapped "Education" education_map), Hedu; [done|]. left.
  - by vm_compute.
  - unfold script. rewrite output_bind, Hprep, Hrate.
    rewrite bind_pure. simpl. rewrite last_snoc. done.
Qed.

(** C7 (as stated) fails: on the table that has only the three columns of
    the example the script drops EmployeeCount and recodes Education, then
    stops with a KeyError at the next ordinal column; no rate is
    computed. *)
Lemma three_columns_only_raises :
  outcome (script {[ csv_path := Csv three_rows ]})
  = inl (Raise (KeyError "EnvironmentSatisfaction"))
  ∧ ¬ ∃ out df' rate,
        script {[ csv_path := Csv three_rows ]} = (out, inr (df', rate)).
Proof.
  assert (outcome (script {[ csv_path := Csv three_rows ]})
          = inl (Raise (KeyError "EnvironmentSatisfaction"))) as H
    by (by vm_compute).
  split; [done|]. intros (out & df' & rate & Heq).
  rewrite Heq in H. done.
Qed.

(** ** The claims at sample tables *)

Ltac by_evaluation := apply (bool_decide_unpack _); vm_compute; exact I.

Lemma recode_by_table_witness :
  reverse recode_steps ≡ₚ recode_steps
  ∧ has_ordinal_columns three_rows_full
  ∧ ∃ df', recode_ordinals three_rows_full = ([], inr df')
      ∧ recode_with (reverse recode_steps) three_rows_full = ([], inr df')
      ∧ lookup_col "WorkLifeBalance" (cols df')
        = Some [VStr "Bad"; VStr "Better"; VStr "Better"].
Proof.
  split; [apply reverse_Permutation|]. split; [by_evaluation|].
  destruct (recode_by_table three_rows_full (reverse recode_steps))
    as (df' & Hrun & Hrev & _ & Hmapped & _);
    [apply reverse_Permutation | by_evaluation |].
  exists df'. split; [exact Hrun|]. split; [exact Hrev|].
  destruct (Hmapped "WorkLifeBalance") as (_ & s & Hs & Hs' & _);
    [by_evaluation|].
  rewrite Hs'. injection Hs as <-. reflexivity.
Defined.

Lemma pruned_iff_single_valued_witness :
  "StandardHours" ∈ candidate_columns
  ∧ lookup_col "StandardHours" (cols with_gap) = Some [VInt 80; VInt 40]
  ∧ ∃ out df', prune_constant_columns with_gap = (out, inr df')
      ∧ ("StandardHours" ∉ columns df' ↔ single_valued [VInt 80; VInt 40])
      ∧ lookup_col "StandardHours" (cols df') = Some [VInt 80; VInt 40].
Proof.
  split; [by_evaluation|]. split; [reflexivity|].
  destruct (pruned_iff_single_valued with_gap "StandardHours" [VInt 80; VInt 40])
    as (out & df' & Hrun & Hiff & _ & Hkept); [by_evaluation | reflexivity |].
  exists out, df'. split; [exact Hrun|]. split; [exact Hiff|].
  apply (Hkept (VInt 80) (VInt 40)); [by_evaluation | by_evaluation | | | ];
    discriminate.
Defined.

Lemma load_failure_stops_witness :
  unavailable {[ csv_path := Garbled ]}
  ∧ ∃ out s, load {[ csv_path := Garbled ]} = (out, inl s)
      ∧ script {[ csv_path := Garbled ]} = (out, inl s).
Proof.
  split; [vm_compute; exact I|].
  destruct (load_failure_stops {[ csv_path := Garbled ]})
    as (out & s & Hload & _ & Hscript & _); [vm_compute; exact I|].
  exists out, s. split; [exact Hload | exact Hscript].
Defined.

Lemma three_row_example_witness :
  has_ordinal_columns three_rows_full
  ∧ ∃ out df' rate,
      script {[ csv_path := Csv three_rows_full ]} = (out, inr (df', rate))
      ∧ ("EmployeeCount" ∉ columns df')
      ∧ lookup_col "Education" (cols df')
        = Some [VStr "Bachelor"; VStr "Master"; VStr "Below College"]
      ∧ format_2f rate = "66.67"
      ∧ last out = Some (Text (nl +:+ "Overall Attrition Rate: 66.67%")).
Proof.
  split; [by_evaluation|].
  apply (three_row_example {[ csv_path := Csv three_rows_full ]} three_rows_full);
    [vm_compute; reflexivity | reflexivity | reflexivity | reflexivity
    | reflexivity | by_evaluation].
Defined.


Lemma recode_twice_all_NaN_witness :
  holds_valid_codes three_rows_full
  ∧ ∃ df1 df2, recode_ordinals three_rows_full = ([], inr df1)
      ∧ recode_ordinals df1 = ([], inr df2)
      ∧ lookup_col "JobInvolvement" (cols df2) = Some [VNaN; VNaN; VNaN].
Proof.
  split; [by_evaluation|].
  destruct (recode_twice_all_NaN three_rows_full)
    as (df1 & df2 & Hrun1 & Hrun2 & Hcols); [by_evaluation|].
  exists df1, df2. split; [exact Hrun1|]. split; [exact Hrun2|].
  destruct (Hcols "JobInvolvement") as (s & s1 & Hs & _ & _ & _ & Hs2 & _);
    [by_evaluation|].
  rewrite Hs2. injection Hs as <-. reflexivity.
Defined.

(** * Further properties of the script *)

(** ** What the pruning loop prints and leaves *)

Lemma filter_ext_in {A} (P Q : A → Prop)
    `{∀ x, Decision (P x), ∀ x, Decision (Q x)} (l : list A) :
  (∀ x, x ∈ l → P x ↔ Q x) → filter P l = filter Q l.
Proof.
  induction l as [|x l IH]; intros Hext; [done|].
  rewrite !filter_cons.
  rewrite IH by (intros y Hy; apply Hext; by right).
  apply decide_ext, Hext. left.
Qed.

Lemma filter_labels (D : string → Prop) `{∀ c, Decision (D c)}
    (l : list (string * list value)) :
  (filter (λ p, D p.1) l).*1 = filter D l.*1.
Proof.
  induction l as [|[c s] l IH]; [done|].
  rewrite fmap_cons, !filter_cons. simpl.
  destruct (decide (D c)); [rewrite fmap_cons|]; by rewrite IH.
Qed.

Lemma prune_output cs df :
  NoDup cs →
  output (for_each cs prune_column df)
  = dropped_message <$> filter (λ c, constant df c) cs.
Proof.
  intros Hnd. revert df. induction Hnd as [|c cs Hc Hnd IH]; intros df; [done|].
  simpl. rewrite filter_cons. destruct (decide (constant df c)) as [Hy|Hn].
  - rewrite prune_column_constant by done. rewrite bind_pure.
    unfold output in *. simpl. rewrite IH. fold (dropped_message c).
    do 2 f_equal. apply filter_ext_in. intros c' Hc'.
    apply constant_without. by intros ->.
  - rewrite prune_column_not_constant, bind_ret by done. apply IH.
Qed.

Lemma columns_to_drop_NoDup : NoDup columns_to_drop.
Proof. apply (bool_decide_unpack _). by vm_compute. Qed.

Lemma prune_run df :
  ∃ df', prune_constant_columns df
         = (dropped_message <$> filter (λ c, constant df c) columns_to_drop,
            inr df')
    ∧ columns df' = filter (λ c, ¬ dropped columns_to_drop df c) (columns df)
    ∧ nrows df' = nrows df.
Proof.
  pose proof (prune_output columns_to_drop df columns_to_drop_NoDup) as Hout.
  unfold prune_constant_columns.
  destruct (prune_spec columns_to_drop df) as [out Hrun].
  rewrite Hrun in Hout |- *. unfold output in Hout. simpl in Hout. subst out.
  eexists. split; [reflexivity|]. split; [|done].
  exact (filter_labels (λ c, ¬ dropped columns_to_drop df c) (cols df)).
Qed.

(** X1.  The pruning loop prints one line per column it drops, in the
    order of the candidate list, and nothing else; the labels it leaves are
    the labels of the table, in their order, without the dropped ones; the
    number of rows is unchanged. *)
Theorem prune_report df :
  ∃ df', prune_constant_columns df
         = (dropped_message <$> filter (λ c, constant df c) columns_to_drop,
            inr df')
    ∧ columns df' = filter (λ c, ¬ dropped columns_to_drop df c) (columns df)
    ∧ nrows df' = nrows df
    ∧ length (columns df') ≤ length (columns df).
Proof.
  destruct (prune_run df) as (df' & Hrun & Hcols & Hrows).
  exists df'. split; [exact Hrun|]. split; [exact Hcols|]. split; [exact Hrows|].
  rewrite Hcols. apply length_filter.
Qed.

(** ** Tables stay well formed through the cleaning *)

Lemma recode_with_output steps df :
  output (for_each steps recode_column df) = [].
Proof.
  revert df. induction steps as [|[c d] steps IH]; intros df; [done|]. simpl.
  destruct (lookup_col c (cols df)) as [s|] eqn:Hs.
  - rewrite (recode_column_present _ _ _ _ Hs), bind_pure. apply IH.
  - apply lookup_col_None in Hs. by rewrite (recode_column_absent _ _ _ Hs).
Qed.

(** X2.  The two cleaning passes keep a table well formed: when the
    cleaning of a table with distinct labels and columns as long as the
    index ends normally, its result again has distinct labels and columns
    as long as the index, and the same number of rows. *)
Theorem clean_well_formed df out df' :
  well_formed df →
  clean df = (out, inr df') →
  well_formed df' ∧ nrows df' = nrows df.
Proof.
  intros Hwf Hrun. unfold clean in Hrun.
  destruct (prune_constant_columns df) as [o1 [s1|df1]] eqn:Hprune;
    [by rewrite bind_stop in Hrun|].
  rewrite bind_pure in Hrun. injection Hrun as _ Hrec.
  pose proof (recode_with_output recode_steps df1) as Hout.
  assert (recode_ordinals df1 = ([], inr df')) as Hrec'.
  { rewrite (run_eta (recode_ordinals df1)). unfold recode_ordinals, recode_with.
    rewrite Hout. f_equal. exact Hrec. }
  split.
  - eapply recode_well_formed; [|exact Hrec'].
    eapply prune_well_formed; [exact Hwf | exact Hprune].
  - destruct (prune_run df) as (df1' & Hp & _ & Hrows).
    rewrite Hprune in Hp. injection Hp as _ <-. rewrite <- Hrows.
    assert (∀ steps d d', for_each steps recode_column d = ([], inr d') →
                          nrows d' = nrows d) as Hn.
    { clear. induction steps as [|[c m] steps IH]; intros d d' Hrun.
      - by injection Hrun as <-.
      - simpl in Hrun. destruct (lookup_col c (cols d)) as [s|] eqn:Hs.
        + rewrite (recode_column_present _ _ _ _ Hs), bind_pure in Hrun.
          simpl in Hrun. rewrite run_eta_pair in Hrun.
          by rewrite (IH _ _ Hrun).
        + apply lookup_col_None in Hs.
          by rewrite (recode_column_absent _ _ _ Hs) in Hrun. }
    by apply (Hn recode_steps).
Qed.

Lemma clean_well_formed_witness :
  well_formed three_rows_full
  ∧ ∃ out df', clean three_rows_full = (out, inr df')
      ∧ well_formed df' ∧ nrows df' = 3.
Proof.
  split; [by_evaluation|].
  assert (∃ out df', clean three_rows_full = (out, inr df'))
    as (out & df' & Hrun) by (eexists _, _; vm_compute; reflexivity).
  exists out, df'. split; [exact Hrun|].
  apply (clean_well_formed three_rows_full out df'); [by_evaluation | exact Hrun].
Defined.

(** ** A missing ordinal column *)

Lemma recode_stops_at_first_missing pre cd post df :
  (∀ x, x ∈ pre.*1 → x ∈ columns df) →
  cd.1 ∉ columns df →
  for_each (pre ++ cd :: post) recode_column df
  = ([], inl (Raise (KeyError cd.1))).
Proof.
  revert df. induction pre as [|[c d] pre IH]; intros df Hpre Hmiss.
  - simpl. destruct cd as [c d]. by rewrite (recode_column_absent _ _ _ Hmiss).
  - rewrite fmap_cons in Hpre. simpl in Hpre.
    assert (c ∈ columns df) as Hc by (apply Hpre; left).
    destruct (proj2 (lookup_col_is_Some _ _) Hc) as [s Hs].
    simpl. rewrite (recode_column_present _ _ _ _ Hs), bind_pure.
    rewrite IH; [done | |].
    + intros x Hx. rewrite setitem_columns by done. apply Hpre. by right.
    + by rewrite setitem_columns.
Qed.

(** X3.  When ordinal columns are missing, the recoding raises KeyError
    for the first of them in the order of lines 77-83, with nothing
    printed, whatever the columns after it hold. *)
Theorem recode_first_missing df pre cd post :
  recode_steps = pre ++ cd :: post →
  (∀ x, x ∈ pre.*1 → x ∈ columns df) →
  cd.1 ∉ columns df →
  recode_ordinals df = ([], inl (Raise (KeyError cd.1))).
Proof.
  intros Hsplit Hpre Hmiss. unfold recode_ordinals, recode_with.
  rewrite Hsplit. by apply recode_stops_at_first_missing.
Qed.

Lemma recode_first_missing_witness :
  recode_ordinals three_rows
  = ([], inl (Raise (KeyError "EnvironmentSatisfaction"))).
Proof.
  apply (recode_first_missing three_rows [("Education", education_map)]
           ("EnvironmentSatisfaction", environment_satisfaction_map)
           (drop 2 recode_steps)).
  - reflexivity.
  - intros x Hx. apply list_elem_of_singleton in Hx as ->. by_evaluation.
  - by_evaluation.
Defined.

(** ** When the attrition rate exists, and where it lies *)

Lemma attrition_rate_cases df :
  (lookup_col "Attrition" (cols df) = None →
     attrition_rate df = ([], inl (Raise (KeyError "Attrition"))))
  ∧ (∀ s, lookup_col "Attrition" (cols df) = Some s → Yes ∉ s →
       attrition_rate df = ([], inl (Raise (KeyError "Yes"))))
  ∧ (∀ s, lookup_col "Attrition" (cols df) = Some s → Yes ∈ s →
       ∃ rate, attrition_rate df = ([], inr rate)).
Proof.
  split; [|split].
  - intros Hnone. unfold attrition_rate. by rewrite (getitem_None _ _ Hnone).
  - intros s Hs Hno. rewrite (attrition_rate_spec _ _ Hs).
    by rewrite decide_True by (by apply count_of_zero).
  - intros s Hs Hyes. rewrite (attrition_rate_spec _ _ Hs).
    rewrite decide_False by (rewrite count_of_zero; tauto). eauto.
Qed.

(** X4.  Lines 92-93 raise KeyError for Attrition when the table has no
    such column and KeyError for Yes when the column has no Yes cell, an
    empty column included; in every other case they give a rate.  They
    print nothing. *)
Theorem attrition_rate_errors df :
  (lookup_col "Attrition" (cols df) = None →
     attrition_rate df = ([], inl (Raise (KeyError "Attrition"))))
  ∧ (∀ s, lookup_col "Attrition" (cols df) = Some s → Yes ∉ s →
       attrition_rate df = ([], inl (Raise (KeyError "Yes"))))
  ∧ (lookup_col "Attrition" (cols df) = Some [] →
       attrition_rate df = ([], inl (Raise (KeyError "Yes"))))
  ∧ (∀ s, lookup_col "Attrition" (cols df) = Some s → Yes ∈ s →
       ∃ rate, attrition_rate df = ([], inr rate)).
Proof.
  destruct (attrition_rate_cases df) as (Hnone & Hno & Hsome).
  split; [exact Hnone|]. split; [exact Hno|]. split; [|exact Hsome].
  intros Hs. apply (Hno [] Hs). apply not_elem_of_nil.
Qed.

(** ** What the recoding leaves in a cell *)

Lemma map_value_notna d v : map_value d v ≠ VNaN ↔ valid_code d v.
Proof.
  split.
  - intros Hna. destruct (decide (valid_code d v)) as [|Hn]; [done|].
    by rewrite (map_value_invalid d v Hn) in Hna.
  - intros (k & -> & l & Hl). simpl. by rewrite Hl.
Qed.

Lemma count_notnull_map d s :
  count_notnull (Series_map d s) = length (filter (valid_code d) s).
Proof.
  unfold count_notnull, Series_map, notna.
  induction s as [|v s IH]; [done|].
  rewrite fmap_cons, !filter_cons.
  destruct (decide (map_value d v ≠ VNaN)) as [Hy|Hn],
           (decide (valid_code d v)) as [Hv|Hv]; simpl; rewrite ?IH; try done.
  - by apply map_value_notna in Hy.
  - by apply map_value_notna in Hv.
Qed.

Lemma count_null_notnull s : count_null s + count_notnull s = length s.
Proof.
  unfold count_null, count_notnull, notna. induction s as [|v s IH]; [done|].
  rewrite !filter_cons.
  destruct (decide (v = VNaN)), (decide (v ≠ VNaN)); simpl; try done; lia.
Qed.

(** X6.  On a table with the seven ordinal columns the recoding leaves, in
    each of these columns, as many cells as before, each one NaN or a label
    of the column's table; the cells that are not NaN are as many as the
    valid codes the column held, which is the non-null count that the
    second [df.info()] shows for it. *)
Theorem recode_null_counts df :
  has_ordinal_columns df →
  ∃ df', recode_ordinals df = ([], inr df')
    ∧ ∀ c d s, (c, d) ∈ recode_steps → lookup_col c (cols df) = Some s →
        ∃ s', lookup_col c (cols df') = Some s'
          ∧ length s' = length s
          ∧ count_notnull s' = length (filter (valid_code d) s)
          ∧ count_null s' + length (filter (valid_code d) s) = length s
          ∧ Forall (λ v, v = VNaN ∨ ∃ k l, d !! k = Some l ∧ v = VStr l) s'.
Proof.
  intros Hin. unfold has_ordinal_columns in Hin. rewrite Forall_forall in Hin.
  destruct (recode_with_lookup recode_steps df recode_steps_NoDup Hin)
    as (df' & Hrun & _ & _ & Hmapped & _).
  exists df'. split; [exact Hrun|]. intros c d s Hcd Hs.
  exists (Series_map d s). rewrite (Hmapped _ _ Hcd), Hs.
  split; [done|]. split; [unfold Series_map; by rewrite length_fmap|].
  split; [apply count_notnull_map|]. split.
  - rewrite <- count_notnull_map, count_null_notnull.
    unfold Series_map. by rewrite length_fmap.
  - unfold Series_map. apply Forall_fmap, Forall_forall. intros v _.
    destruct v as [k| |]; simpl; [|by left|by left].
    destruct (d !! k) as [l|] eqn:Hk; [right; eauto | by left].
Qed.

Lemma recode_null_counts_witness :
  has_ordinal_columns odd_codes
  ∧ ∃ df' s', recode_ordinals odd_codes = ([], inr df')
      ∧ lookup_col "Education" (cols df') = Some s'
      ∧ count_notnull s' = 0.
Proof.
  split; [by_evaluation|].
  destruct (recode_null_counts odd_codes) as (df' & Hrun & Hcols);
    [by_evaluation|].
  destruct (Hcols "Education" education_map [VInt 9; VStr "Master"; VNaN])
    as (s' & Hs' & _ & Hnn & _); [by_evaluation | reflexivity |].
  exists df', s'. split; [exact Hrun|]. split; [exact Hs'|].
  rewrite Hnn. vm_compute. reflexivity.
Defined.

(** ** The exploration of lines 38-54 *)

Lemma remove_dups_length_le {A} `{EqDecision A} (l : list A) :
  length (remove_dups l) ≤ length l.
Proof.
  induction l as [|x l IH]; simpl; [done|].
  destruct (decide_rel elem_of x l); simpl; lia.
Qed.

Lemma remove_dups_length_eq {A} `{EqDecision A} (l : list A) :
  length (remove_dups l) = length l ↔ NoDup l.
Proof.
  induction l as [|x l IH]; simpl.
  - split; [intros _; constructor | intros _; reflexivity].
  - rewrite NoDup_cons. pose proof (remove_dups_length_le l).
    destruct (decide_rel elem_of x l) as [Hin|Hout]; simpl.
    + split; [lia | intros [? _]; done].
    + rewrite <- IH. split; [intros ?; split; [done | lia] | intros [_ ?]; lia].
Qed.

Lemma remove_dups_length_pos {A} `{EqDecision A} (l : list A) :
  l ≠ [] → 0 < length (remove_dups l).
Proof.
  destruct l as [|x l]; [done|]. intros _.
  assert (x ∈ remove_dups (x :: l)) as Hin by (apply elem_of_remove_dups; left).
  destruct (remove_dups (x :: l)); [by apply elem_of_nil in Hin | simpl; lia].
Qed.

Lemma rows_length df : length (rows df) = nrows df.
Proof. unfold rows. by rewrite length_fmap, length_seq. Qed.

(** X8.  The number of duplicate rows that line 54 prints is 0 exactly
    when no two rows of the table are equal; it is below the number of
    rows as soon as there is a row, and it is that number less one for a
    table whose rows are all equal. *)
Theorem duplicated_sum_zero df :
  (duplicated_sum df = 0 ↔ NoDup (rows df))
  ∧ (0 < nrows df → duplicated_sum df < nrows df)
  ∧ (0 < nrows df → (∀ r, r ∈ rows df → r = row df 0) →
       duplicated_sum df = nrows df - 1).
Proof.
  unfold duplicated_sum. fold (rows df).
  pose proof (remove_dups_length_le (rows df)) as Hle.
  pose proof (rows_length df) as Hlen. rewrite Hlen in Hle.
  split; [|split].
  - rewrite <- remove_dups_length_eq, Hlen. lia.
  - intros Hpos. assert (rows df ≠ []) as Hne.
    { intros Hnil. rewrite Hnil in Hlen. simpl in Hlen. lia. }
    pose proof (remove_dups_length_pos _ Hne). lia.
  - intros Hpos Hall. assert (rows df ≠ []) as Hne.
    { intros Hnil. rewrite Hnil in Hlen. simpl in Hlen. lia. }
    pose proof (remove_dups_length_pos _ Hne) as Hp.
    assert (length (remove_dups (rows df)) ≤ 1); [|lia].
    apply (NoDup_all_equal _ (row df 0)); [apply NoDup_remove_dups|].
    intros r Hr. apply Hall. exact (proj1 (elem_of_remove_dups _ _) Hr).
Qed.

(** ** The first rows *)

Lemma lookup_col_fmap (f : list value → list value) c l :
  lookup_col c ((λ p, (p.1, f p.2)) <$> l) = f <$> lookup_col c l.
Proof.
  induction l as [|[c0 s0] l IH]; [done|].
  rewrite fmap_cons. simpl. by destruct (decide (c0 = c)).
Qed.

(** X9.  [df.head()] of a well-formed table is a well-formed table with
    the same labels in the same order and at most five rows: every column
    is cut to its first five cells, and a table of five rows or fewer is
    shown whole. *)
Theorem head_first_rows df :
  well_formed df →
  well_formed (head df)
  ∧ columns (head df) = columns df
  ∧ nrows (head df) = min 5 (nrows df)
  ∧ (∀ c, lookup_col c (cols (head df)) = take 5 <$> lookup_col c (cols df))
  ∧ (nrows df ≤ 5 → head df = df).
Proof.
  intros [Hnd Hlen].
  assert (columns (head df) = columns df) as Hcols.
  { unfold columns, head. simpl. rewrite <- list_fmap_compose.
    by apply list_fmap_ext. }
  split; [|split; [done|split; [done|split]]].
  - split; [by rewrite Hcols|]. unfold head. simpl.
    apply Forall_fmap. eapply Forall_impl; [exact Hlen|].
    intros [c s] Hs. simpl in *. by rewrite length_take, Hs.
  - intros c. apply (lookup_col_fmap (take 5)).
  - intros Hsmall. destruct df as [l n]. unfold head. cbn [cols nrows] in *.
    f_equal; [|by apply Nat.min_r].
    clear Hnd Hcols. induction Hlen as [|[c s] l Hs Hl IH]; [done|].
    rewrite fmap_cons. cbn [fst snd] in *.
    rewrite take_ge by lia. f_equal. apply IH.
Qed.

Lemma head_first_rows_witness :
  well_formed three_rows_full
  ∧ head three_rows_full = three_rows_full.
Proof.
  split; [by_evaluation|].
  apply (head_first_rows three_rows_full); [by_evaluation | vm_compute; lia].
Defined.

(** ** When the whole script ends normally *)

Lemma clean_fails_without_columns df :
  ¬ has_ordinal_columns df →
  ∃ c, c ∈ recode_steps.*1 ∧ (c ∉ columns df)
    ∧ outcome (clean df) = inl (Raise (KeyError c)).
Proof.
  intros Hno. unfold has_ordinal_columns in Hno.
  apply not_Forall_Exists in Hno; [|apply _].
  apply Exists_exists in Hno as (c & Hc & Hmiss).
  destruct (prune_spec columns_to_drop df) as [out Hout].
  match type of Hout with _ = (_, inr ?d) => set (df1 := d) in * end.
  assert (∀ x, x ∈ recode_steps.*1 →
               lookup_col x (cols df1) = lookup_col x (cols df)) as Hkeep.
  { intros x Hx. rewrite (prune_lookup _ _ _ _ x Hout), decide_False; [done|].
    intros [Hd _]. by apply (recode_labels_not_candidates x). }
  destruct (recode_with_missing recode_steps df1) as (c' & Hc' & Hmiss' & Hrun).
  { exists c. split; [done|]. unfold columns.
    rewrite <- lookup_col_None, (Hkeep c Hc). by apply lookup_col_None. }
  exists c'. split; [done|]. split.
  - unfold columns in *. rewrite <- lookup_col_None, <- (Hkeep c' Hc').
    by apply lookup_col_None.
  - unfold clean, prune_constant_columns. rewrite Hout, outcome_bind. simpl.
    unfold recode_ordinals, recode_with. by rewrite Hrun.
Qed.

Lemma clean_keeps_Attrition df :
  has_ordinal_columns df →
  ∃ out df', clean df = (out, inr df')
    ∧ nrows df' = nrows df
    ∧ lookup_col "Attrition" (cols df') = lookup_col "Attrition" (cols df).
Proof.
  intros Hin.
  destruct (clean_spec df Hin)
    as (o & df1 & df' & _ & Hclean & Hrows & Hl1 & _ & Hother).
  exists o, df'. split; [done|]. split; [done|].
  rewrite Hother by (apply (bool_decide_unpack _); by vm_compute).
  rewrite Hl1, decide_False; [done|].
  intros [Hd _]. revert Hd. apply (bool_decide_unpack _). by vm_compute.
Qed.

Lemma script_outcome fs df df' :
  fs !! csv_path = Some (Csv df) →
  outcome (clean df) = inr df' →
  outcome (script fs)
  = match outcome (attrition_rate df') with
    | inl s => inl s
    | inr rate => inr (df', rate)
    end.
Proof.
  intros Hfs Hclean. unfold script.
  rewrite outcome_bind, (prepare_outcome _ _ Hfs), Hclean.
  rewrite outcome_bind. by destruct (outcome (attrition_rate df')).
Qed.

(** X10.  The script reaches the end of line 94 if and only if the file at
    its path parses to a table that has the seven ordinal columns and an
    Attrition column with at least one Yes cell; in every other case it
    stops before the rate is printed. *)
Theorem script_succeeds_iff fs :
  (∃ out df' rate, script fs = (out, inr (df', rate)))
  ↔ ∃ df s, fs !! csv_path = Some (Csv df)
      ∧ has_ordinal_columns df
      ∧ lookup_col "Attrition" (cols df) = Some s
      ∧ Yes ∈ s.
Proof.
  split.
  - intros (out & df' & rate & Hrun).
    destruct (decide (unavailable fs)) as [Hun|Hav].
    { assert (∃ o s, load fs = (o, inl s)) as (o & s & Hload).
      { destruct (load_unavailable fs Hun) as [[_ Hl]|[_ (e & _ & Hl)]]; eauto. }
      unfold script, prepare in Hrun. rewrite Hload in Hrun. done. }
    unfold unavailable in Hav.
    destruct (fs !! csv_path) as [[df| | | |]|] eqn:Hfs; try done.
    assert (outcome (script fs) = inr (df', rate)) as Hok by (by rewrite Hrun).
    destruct (decide (has_ordinal_columns df)) as [Hin|Hno].
    + destruct (clean_keeps_Attrition df Hin) as (o & d & Hclean & _ & Hattr).
      rewrite (script_outcome fs df d Hfs) in Hok by (by rewrite Hclean).
      destruct (attrition_rate_cases d) as (Hnone & Hnoyes & _).
      destruct (lookup_col "Attrition" (cols df)) as [s|] eqn:Hs.
      * destruct (decide (Yes ∈ s)) as [Hyes|Hn]; [by exists df, s|].
        rewrite (Hnoyes s Hattr Hn) in Hok. done.
      * rewrite (Hnone Hattr) in Hok. done.
    + destruct (clean_fails_without_columns df Hno) as (c & _ & _ & Hfail).
      unfold script in Hok.
      rewrite outcome_bind, (prepare_outcome _ _ Hfs), Hfail in Hok. done.
  - intros (df & s & Hfs & Hin & Hs & Hyes).
    destruct (clean_keeps_Attrition df Hin) as (o & d & Hclean & _ & Hattr).
    rewrite Hs in Hattr.
    destruct (attrition_rate_cases d) as (_ & _ & Hsome).
    destruct (Hsome s Hattr Hyes) as [rate Hrate].
    exists (output (script fs)), d, rate.
    rewrite (run_eta (script fs)) at 1. f_equal.
    rewrite (script_outcome fs df d Hfs) by (by rewrite Hclean).
    by rewrite Hrate.
Qed.

(** ** The cleaning and the columns read afterwards *)

Lemma columns_read_not_candidates c :
  c ∈ columns_read → c ∉ columns_to_drop.
Proof.
  revert c. apply Forall_forall. apply (bool_decide_unpack _). by vm_compute.
Qed.

(** X11.  None of the columns that the attrition rate and the figures
    look up is a pruning candidate: when the cleaning ends normally, each
    of them is in the cleaned table if and only if it was in the table
    read, and those that are not recoded hold the cells they held. *)
Theorem cleaning_keeps_columns_read df out df' c :
  clean df = (out, inr df') →
  c ∈ columns_read →
  (c ∈ columns df' ↔ c ∈ columns df)
  ∧ (c ∉ recode_steps.*1 →
       lookup_col c (cols df') = lookup_col c (cols df)).
Proof.
  intros Hrun Hc.
  destruct (decide (has_ordinal_columns df)) as [Hin|Hno].
  2:{ destruct (clean_fails_without_columns df Hno) as (x & _ & _ & Hfail).
      rewrite Hrun in Hfail. done. }
  destruct (clean_spec df Hin)
    as (o & df1 & d & _ & Hclean & _ & Hl1 & Hmapped & Hother).
  rewrite Hrun in Hclean. injection Hclean as _ <-.
  assert (lookup_col c (cols df1) = lookup_col c (cols df)) as Hc1.
  { rewrite Hl1, decide_False; [done|].
    intros [Hd _]. by apply (columns_read_not_candidates c). }
  split.
  - unfold columns. rewrite <- !lookup_col_is_Some.
    destruct (decide (c ∈ recode_steps.*1)) as [Hrec|Hnot].
    + apply list_elem_of_fmap in Hrec as ([c0 d] & -> & Hcd). simpl.
      rewrite (Hmapped _ _ Hcd). apply fmap_is_Some.
    + by rewrite (Hother _ Hnot), Hc1.
  - intros Hnot. by rewrite (Hother _ Hnot), Hc1.
Qed.

Lemma cleaning_keeps_columns_read_witness :
  ∃ out df', clean three_rows_full = (out, inr df')
    ∧ lookup_col "Attrition" (cols df') = Some [Yes; No; Yes].
Proof.
  assert (∃ out df', clean three_rows_full = (out, inr df'))
    as (out & df' & Hrun) by (eexists _, _; vm_compute; reflexivity).
  exists out, df'. split; [exact Hrun|].
  destruct (cleaning_keeps_columns_read three_rows_full out df' "Attrition")
    as [_ Hsame]; [exact Hrun | by_evaluation |].
  rewrite Hsame; [reflexivity | by_evaluation].
Defined.

(** ** The two passes in the other order *)

Lemma assign_filter (D : string → Prop) `{∀ c, Decision (D c)} c s
    (l : list (string * list value)) :
  ¬ D c → c ∈ l.*1 →
  filter (λ p, ¬ D p.1) (assign c s l) = assign c s (filter (λ p, ¬ D p.1) l).
Proof.
  intros HD. induction l as [|[c0 s0] l IH]; intros Hin.
  - by apply elem_of_nil in Hin.
  - simpl. destruct (decide (c0 = c)) as [->|Hne].
    + rewrite !filter_cons_True by done. simpl. by rewrite decide_True.
    + rewrite fmap_cons in Hin. apply elem_of_cons in Hin as [Heq|Hin];
        [simpl in Heq; congruence|].
      rewrite !filter_cons. simpl. destruct (decide (¬ D c0)).
      * simpl. rewrite decide_False by done. by rewrite IH.
      * by apply IH.
Qed.

Lemma recode_without (D : string → Prop) `{∀ c, Decision (D c)} steps df df' :
  (∀ c, c ∈ steps.*1 → ¬ D c) →
  for_each steps recode_column df = ([], inr df') →
  for_each steps recode_column (without D df) = ([], inr (without D df')).
Proof.
  revert df. induction steps as [|[c d] steps IH]; intros df HD Hrun.
  - by injection Hrun as <-.
  - rewrite fmap_cons in HD. simpl in HD, Hrun.
    destruct (lookup_col c (cols df)) as [s|] eqn:Hs.
    2:{ apply lookup_col_None in Hs.
        by rewrite (recode_column_absent _ _ _ Hs) in Hrun. }
    rewrite (recode_column_present _ _ _ _ Hs), bind_pure in Hrun.
    simpl in Hrun. rewrite run_eta_pair in Hrun.
    assert (lookup_col c (cols (without D df)) = Some s) as Hs'.
    { unfold without. simpl. rewrite (lookup_col_filter D), decide_False; [done|].
      apply HD. left. }
    simpl. rewrite (recode_column_present _ _ _ _ Hs'), bind_pure.
    assert (setitem (without D df) c (Series_map d s)
            = without D (setitem df c (Series_map d s))) as ->.
    { unfold setitem, without. simpl. f_equal. symmetry.
      apply (assign_filter D); [apply HD; left|].
      apply lookup_col_is_Some. eauto. }
    rewrite (IH _ (λ x Hx, HD x (proj2 (elem_of_cons _ _ _) (or_intror Hx))) Hrun).
    done.
Qed.

(** X12.  On a table with the seven ordinal columns the two cleaning
    passes can be exchanged: recoding first and pruning afterwards prints
    the same lines and gives the same table as the script's order. *)
Theorem clean_passes_commute df :
  has_ordinal_columns df →
  clean df = (df1 ← recode_ordinals df; prune_constant_columns df1).
Proof.
  intros Hin. pose proof Hin as Hin'.
  unfold has_ordinal_columns in Hin'. rewrite Forall_forall in Hin'.
  destruct (recode_with_lookup recode_steps df recode_steps_NoDup Hin')
    as (R & HrunR & _ & HrowsR & _ & Hother).
  destruct (prune_run df) as (P & HrunP & _).
  destruct (prune_run R) as (Q & HrunQ & _).
  destruct (prune_spec columns_to_drop df) as [o1 HspecP].
  destruct (prune_spec columns_to_drop R) as [o2 HspecQ].
  unfold prune_constant_columns in HrunP, HrunQ.
  rewrite HspecP in HrunP. injection HrunP as Ho1 HP.
  rewrite HspecQ in HrunQ. injection HrunQ as Ho2 HQ.
  assert (∀ x, x ∈ columns_to_drop → constant R x ↔ constant df x) as Hconst.
  { intros x Hx. unfold constant. rewrite Hother; [done|].
    intros Hrec. by apply (recode_labels_not_candidates x). }
  unfold clean, prune_constant_columns, recode_ordinals, recode_with.
  rewrite HspecP, HrunR, !bind_pure, HspecQ.
  pose proof (recode_without (dropped columns_to_drop df) recode_steps df R)
    as Hswap.
  unfold without in Hswap. rewrite Hswap;
    [|intros c Hc [Hd _]; by apply (recode_labels_not_candidates c)
     |exact HrunR].
  cbn [fst snd app]. rewrite app_nil_r, Ho1, Ho2. f_equal.
  - f_equal. apply filter_ext_in. intros x Hx. symmetry. by apply Hconst.
  - f_equal. unfold without. rewrite HrowsR. f_equal.
    apply filter_ext_in. intros [x s] _. simpl. unfold dropped.
    split; intros Hn [Hx Hc]; apply Hn; (split; [done|]); by apply Hconst.
Qed.

Lemma clean_passes_commute_witness :
  has_ordinal_columns three_rows_full
  ∧ clean three_rows_full
    = (df1 ← recode_ordinals three_rows_full; prune_constant_columns df1).
Proof.
  split; [by_evaluation|].
  apply (clean_passes_commute three_rows_full). by_evaluation.
Defined.

(** ** Edge cases of the two passes *)

Lemma nunique_all_missing s : Forall (λ v, v = VNaN) s → nunique s = 0.
Proof.
  intros Hall. unfold nunique.
  assert (filter notna s = []) as ->; [|done].
  induction Hall as [|v s Hv _ IH]; [done|].
  rewrite filter_cons, decide_False; [done|]. unfold notna. by intros ?.
Qed.

(** X14.  A table whose candidate columns hold no value at all (no rows,
    as for a file with a header only, or nothing but missing cells) goes
    through the pruning loop unchanged and with nothing printed. *)
Theorem prune_all_missing df :
  (∀ c s, c ∈ columns_to_drop → lookup_col c (cols df) = Some s →
     Forall (λ v, v = VNaN) s) →
  prune_constant_columns df = ([], inr df).
Proof.
  intros Hall. apply prune_noop. intros c Hc Hconst. unfold constant in Hconst.
  destruct (lookup_col c (cols df)) as [s|] eqn:Hs; [|done].
  rewrite (nunique_all_missing s) in Hconst; [done|]. by apply (Hall c).
Qed.

Lemma prune_all_missing_witness :
  prune_constant_columns
    {| cols := [("EmployeeCount", []); ("Over18", [])]; nrows := 0 |}
  = ([], inr {| cols := [("EmployeeCount", []); ("Over18", [])]; nrows := 0 |}).
Proof.
  apply (prune_all_missing
           {| cols := [("EmployeeCount", []); ("Over18", [])]; nrows := 0 |}).
  intros c s _ Hs. simpl in Hs.
  destruct (decide ("EmployeeCount" = c)); [injection Hs as <-; constructor|].
  destruct (decide ("Over18" = c)); [injection Hs as <-; constructor|].
  discriminate Hs.
Defined.

(** X15.  In whatever order the seven assignments of lines 77-83 are run,
    they all go through if and only if the table has the seven ordinal
    columns; with a column missing every order ends in a KeyError for a
    column that is missing. *)
Theorem recode_succeeds_iff df steps :
  steps ≡ₚ recode_steps →
  ((∃ df', recode_with steps df = ([], inr df')) ↔ has_ordinal_columns df)
  ∧ (¬ has_ordinal_columns df →
       ∃ c, c ∈ recode_steps.*1 ∧ (c ∉ columns df)
         ∧ recode_with steps df = ([], inl (Raise (KeyError c)))).
Proof.
  intros Hperm.
  assert (¬ has_ordinal_columns df →
          ∃ c, c ∈ recode_steps.*1 ∧ (c ∉ columns df)
            ∧ recode_with steps df = ([], inl (Raise (KeyError c)))) as Hfail.
  { intros Hno. unfold has_ordinal_columns in Hno.
    apply not_Forall_Exists in Hno; [|apply _].
    apply Exists_exists in Hno as (c & Hc & Hmiss).
    destruct (recode_with_missing steps df) as (c' & Hc' & Hmiss' & Hrun).
    { exists c. split; [by rewrite Hperm | done]. }
    exists c'. split; [by rewrite <- Hperm | done]. }
  split; [|exact Hfail]. split.
  - intros [df' Hrun].
    destruct (decide (has_ordinal_columns df)) as [|Hno]; [done|].
    destruct (Hfail Hno) as (c & _ & _ & Hrun'). rewrite Hrun in Hrun'. done.
  - intros Hin. unfold has_ordinal_columns in Hin. rewrite Forall_forall in Hin.
    destruct (recode_with_lookup recode_steps df recode_steps_NoDup Hin)
      as (df' & Hrun & _).
    exists df'. unfold recode_with. rewrite <- Hrun. symmetry.
    apply recode_with_perm; [by symmetry | apply recode_steps_NoDup | done].
Qed.

Lemma recode_succeeds_iff_witness :
  reverse recode_steps ≡ₚ recode_steps
  ∧ ∃ c, c ∈ recode_steps.*1 ∧ (c ∉ columns three_rows)
      ∧ recode_with (reverse recode_steps) three_rows
        = ([], inl (Raise (KeyError c))).
Proof.
  split; [apply reverse_Permutation|].
  apply (recode_succeeds_iff three_rows (reverse recode_steps));
    [apply reverse_Permutation|].
  apply (bool_decide_unpack _). vm_compute. exact I.
Defined.

(** ** What a run prints *)

Lemma explore_run df : explore df = (output (explore df), inr tt).
Proof. rewrite (run_eta (explore df)) at 1. by rewrite explore_outcome. Qed.

Lemma prune_keeps_recoded df df1 out c :
  prune_constant_columns df = (out, inr df1) →
  c ∈ recode_steps.*1 →
  (c ∈ columns df1 ↔ c ∈ columns df).
Proof.
  intros Hrun Hc. unfold columns. rewrite <- !lookup_col_is_Some.
  rewrite (prune_lookup _ _ _ _ c Hrun), decide_False; [done|].
  intros [Hd _]. by apply (recode_labels_not_candidates c).
Qed.

(** X16.  A run that reaches the end of line 94 has printed, in this
    order: the line that the file was loaded, the exploration of the table
    read, one line per dropped column, the two lines after the recoding,
    the summary of the cleaned table, and the line with the rate, which is
    the binary64 number of line 93 for the Yes cells and the rows of the
    table read, written with two decimals. *)
Theorem script_output fs df s :
  fs !! csv_path = Some (Csv df) →
  has_ordinal_columns df →
  lookup_col "Attrition" (cols df) = Some s →
  Yes ∈ s →
  ∃ df', script fs
    = (Text ("Dataset loaded successfully." +:+ nl)
         :: output (explore df)
         ++ (dropped_message <$> filter (λ c, constant df c) columns_to_drop)
         ++ [ Text (nl +:+ "Categorical columns mapped to descriptive labels.");
              Text (nl +:+ "Updated DataFrame info:");
              Info df';
              Text (nl +:+ "Overall Attrition Rate: "
                       +:+ format_2f (rate_of (count_of Yes s) (nrows df))
                       +:+ "%") ],
       inr (df', rate_of (count_of Yes s) (nrows df))).
Proof.
  intros Hfs Hin Hs Hyes.
  destruct (clean_spec df Hin)
    as (o & df1 & df' & Hprune & Hclean & Hrows & _).
  destruct (prune_run df) as (df1' & Hprune' & _).
  rewrite Hprune in Hprune'. injection Hprune' as Ho _. subst o.
  destruct (clean_keeps_Attrition df Hin) as (o & d & Hclean' & _ & Hattr).
  rewrite Hclean in Hclean'. injection Hclean' as _ <-. rewrite Hs in Hattr.
  pose proof (attrition_rate_spec df' s Hattr) as Hrate.
  rewrite decide_False in Hrate by (rewrite count_of_zero; tauto).
  rewrite Hrows in Hrate.
  exists df'. unfold script, prepare.
  rewrite (load_csv _ _ Hfs), bind_pure, explore_run, bind_pure, Hclean.
  rewrite bind_pure. cbn [fst snd]. unfold info.
  cbn [mbind M_bind print mret M_ret fst snd app].
  rewrite Hrate. unfold output. cbn [mbind M_bind fst snd app].
  f_equal. f_equal. rewrite <- !app_assoc. reflexivity.
Qed.

Lemma script_output_witness :
  has_ordinal_columns three_rows_full
  ∧ ∃ df' out, script {[ csv_path := Csv three_rows_full ]}
      = (Text ("Dataset loaded successfully." +:+ nl) :: out,
         inr (df', rate_of 2 3))
      ∧ last out = Some (Text (nl +:+ "Overall Attrition Rate: 66.67%")).
Proof.
  split; [by_evaluation|].
  destruct (script_output {[ csv_path := Csv three_rows_full ]}
              three_rows_full [Yes; No; Yes])
    as (df' & Hrun);
    [vm_compute; reflexivity | by_evaluation | reflexivity | by_evaluation |].
  eexists df', _. split; [exact Hrun|].
  rewrite !last_app. reflexivity.
Defined.

(** X17.  When the table read lacks an ordinal column, the run stops at
    the first missing one, in the order of lines 77-83, with a KeyError for
    its label; it has then printed the load line, the exploration and the
    lines of the dropped columns, and nothing about the recoding or the
    rate. *)
Theorem script_stops_at_missing_column fs df pre cd post :
  fs !! csv_path = Some (Csv df) →
  recode_steps = pre ++ cd :: post →
  (∀ x, x ∈ pre.*1 → x ∈ columns df) →
  cd.1 ∉ columns df →
  script fs
  = (Text ("Dataset loaded successfully." +:+ nl)
       :: output (explore df)
       ++ (dropped_message <$> filter (λ c, constant df c) columns_to_drop),
     inl (Raise (KeyError cd.1))).
Proof.
  intros Hfs Hsplit Hpre Hmiss.
  destruct (prune_run df) as (df1 & Hprune & _).
  assert (∀ x, x ∈ recode_steps.*1 → (x ∈ columns df1 ↔ x ∈ columns df)) as Hk
    by (intros x Hx; by apply (prune_keeps_recoded df df1 _ x Hprune)).
  assert (recode_ordinals df1 = ([], inl (Raise (KeyError cd.1)))) as Hrec.
  { unfold recode_ordinals, recode_with. rewrite Hsplit.
    apply recode_stops_at_first_missing.
    - intros x Hx. apply Hk; [|by apply Hpre].
      rewrite Hsplit, fmap_app. apply elem_of_app. by left.
    - intros Hc. apply Hmiss, Hk; [|done].
      rewrite Hsplit, fmap_app, fmap_cons. apply elem_of_app. right. left. }
  unfold script, prepare, clean.
  rewrite (load_csv _ _ Hfs), bind_pure, explore_run, bind_pure, Hprune.
  rewrite bind_pure, Hrec. cbn [mbind M_bind fst snd app].
  by rewrite !app_nil_r.
Qed.

Lemma script_stops_at_missing_column_witness :
  script {[ csv_path := Csv three_rows ]}
  = (Text ("Dataset loaded successfully." +:+ nl)
       :: output (explore three_rows)
       ++ (dropped_message
             <$> filter (λ c, constant three_rows c) columns_to_drop),
     inl (Raise (KeyError "EnvironmentSatisfaction"))).
Proof.
  apply (script_stops_at_missing_column {[ csv_path := Csv three_rows ]}
           three_rows [("Education", education_map)]
           ("EnvironmentSatisfaction", environment_satisfaction_map)
           (drop 2 recode_steps)).
  - vm_compute; reflexivity.
  - reflexivity.
  - intros x Hx. apply list_elem_of_singleton in Hx as ->. by_evaluation.
  - by_evaluation.
Defined.
